(** * symdiff: symbolic differentiation and simplification

    A shallow embedding of [symdiff.py]: the expression classes, the
    operator overloads that build trees, [simplify], [differentiate] and
    the textual rendering, followed by the properties of the
    specification that were checked against them.

    The classes are embedded twice.  First over the executable host
    [Py] of integers and [None], on which every example can be computed
    and every failure exhibited.  Then, in [Generic], over any host: the
    objects a [Constant] can hold and the operators [==], [+], [*], [**]
    and [str] on them are left open, so that what is proved there holds
    of floats and of every other object as well.  [Exactness] relates
    the two: what the methods return on [Py], they return on every host
    that computes on integers as Python does. *)

From Equations Require Import Equations.
From Stdlib Require Import ZArith String Ascii Bool Lia.
From Stdlib Require Import DecimalString DecimalPos DecimalZ.

Local Open Scope Z_scope.
Local Open Scope string_scope.

(** ** Host values and outcomes

    [Constant] stores whatever object it is given.  This host follows
    Python integers (unbounded, hence [Z]) and [None] as the
    representative of objects that are not numbers.  Floating point
    numbers are not values of this host: the only place where integer
    arithmetic leaves the integers is [**] with a negative exponent and
    a base other than 0, and a computation that reaches it stops with
    [Float_result], which is not an outcome of the program but the mark
    that this host cannot follow it.  The source goes on with a float
    there; such runs are covered by the properties stated over any host
    in [AnyHost].  Whatever this host returns or raises, the program
    returns or raises. *)

Module Py.

Inductive value : Type :=
| Int (z : Z)
| NoneValue.

(** The exceptions an operator of a host may raise. *)
Inductive exn : Type :=
| TypeError
| ZeroDivisionError
| OverflowError
| Other (name : string).

Inductive result (A : Type) : Type :=
| Ret (a : A)
| Raise (x : exn)
| Float_result.

Arguments Ret {A} a.
Arguments Raise {A} x.
Arguments Float_result {A}.

Definition bind {A B : Type} (c : result A) (k : A -> result B) : result B :=
  match c with
  | Ret a => k a
  | Raise x => Raise x
  | Float_result => Float_result
  end.

Definition map {A B : Type} (f : A -> B) (c : result A) : result B :=
  bind c (fun a => Ret (f a)).

(** Both operands are evaluated left to right before [f] is applied. *)
Definition map2 {A B C : Type} (f : A -> B -> C)
           (c1 : result A) (c2 : result B) : result C :=
  bind c1 (fun a => bind c2 (fun b => Ret (f a b))).

(** [v == k] for an integer literal [k]. *)
Definition eq_int (v : value) (k : Z) : bool :=
  match v with
  | Int z => Z.eqb z k
  | NoneValue => false
  end.

(** [v + w] *)
Definition add (v w : value) : result value :=
  match v, w with
  | Int a, Int b => Ret (Int (a + b))
  | _, _ => Raise TypeError
  end.

(** [v * w] *)
Definition mul (v w : value) : result value :=
  match v, w with
  | Int a, Int b => Ret (Int (a * b))
  | _, _ => Raise TypeError
  end.

(** [v ** w]: an integer for a non-negative exponent; with a negative
    exponent zero cannot be raised and any other base gives a float. *)
Definition pow (v w : value) : result value :=
  match v, w with
  | Int a, Int b =>
      if (0 <=? b)%Z then Ret (Int (a ^ b))
      else if (a =? 0)%Z then Raise ZeroDivisionError
      else Float_result
  | _, _ => Raise TypeError
  end.

(** [str(v)] *)
Definition str (v : value) : string :=
  match v with
  | Int z => NilZero.string_of_int (Z.to_int z)
  | NoneValue => "None"
  end.

End Py.

Import Py.

Notation "x <- c ;; k" := (Py.bind c (fun x => k))
  (at level 61, c at next level, right associativity).

(** ** The expression classes

    One constructor per concrete subclass of [Expression]; the class
    [Variable] is the constructor [Var], its own name being reserved. *)

Inductive Expression : Type :=
| Constant (value : Py.value)
| Var (name : string)
| Add (left right : Expression)
| Multiply (left right : Expression)
| Power (base exponent : Expression).

(** An operand of an overloaded operator: an [Expression] instance or
    any other object. *)
Inductive operand : Type :=
| Instance (e : Expression)
| Object (v : Py.value).

Definition to_expression (value : operand) : Expression :=
  match value with
  | Instance e => e
  | Object v => Constant v
  end.

Definition __add__ (self : Expression) (other : operand) : Expression :=
  Add self (to_expression other).

Definition __radd__ (self : Expression) (other : operand) : Expression :=
  Add (to_expression other) self.

Definition __sub__ (self : Expression) (other : operand) : Expression :=
  Add self (Multiply (Constant (Int (-1))) (to_expression other)).

Definition __rsub__ (self : Expression) (other : operand) : Expression :=
  Add (to_expression other) (Multiply (Constant (Int (-1))) self).

Definition __mul__ (self : Expression) (other : operand) : Expression :=
  Multiply self (to_expression other).

Definition __rmul__ (self : Expression) (other : operand) : Expression :=
  Multiply (to_expression other) self.

Definition __pow__ (self : Expression) (other : operand) : Expression :=
  Power self (to_expression other).

(** [isinstance(e, Constant) and e.value == k] *)
Definition is_constant (e : Expression) (k : Z) : bool :=
  match e with
  | Constant v => Py.eq_int v k
  | _ => false
  end.

(** [simplify]: [Constant] and [Variable] inherit the method of the
    base class, which returns [self]; the three binary classes simplify
    the left child, then the right child, and then try their rules in
    the order of the [if] statements.  An exception raised by a child or
    by the folding arithmetic ends the call. *)
Fixpoint simplify (self : Expression) : result Expression :=
  match self with
  | Constant _ => Ret self
  | Var _ => Ret self
  | Add l r =>
      left' <- simplify l ;;
      right' <- simplify r ;;
      if is_constant left' 0 then Ret right'
      else if is_constant right' 0 then Ret left'
      else match left', right' with
           | Constant a, Constant b => v <- Py.add a b ;; Ret (Constant v)
           | _, _ => Ret (Add left' right')
           end
  | Multiply l r =>
      left' <- simplify l ;;
      right' <- simplify r ;;
      if is_constant left' 0 then Ret (Constant (Int 0))
      else if is_constant right' 0 then Ret (Constant (Int 0))
      else if is_constant left' 1 then Ret right'
      else if is_constant right' 1 then Ret left'
      else match left', right' with
           | Constant a, Constant b => v <- Py.mul a b ;; Ret (Constant v)
           | _, _ => Ret (Multiply left' right')
           end
  | Power b e =>
      base' <- simplify b ;;
      exponent' <- simplify e ;;
      if is_constant exponent' 0 then Ret (Constant (Int 1))
      else if is_constant exponent' 1 then Ret base'
      else match base', exponent' with
           | Constant a, Constant b => v <- Py.pow a b ;; Ret (Constant v)
           | _, _ => Ret (Power base' exponent')
           end
  end.

(** Number of nodes, the measure on which [differentiate] recurses. *)
Fixpoint size (e : Expression) : nat :=
  match e with
  | Constant _ | Var _ => 1
  | Add l r | Multiply l r | Power l r => S (size l + size r)
  end.

(** The rules that [simplify] applies at a node once both children have
    been simplified, as functions of the simplified children. *)
Definition Add_rules (left' right' : Expression) : result Expression :=
  if is_constant left' 0 then Ret right'
  else if is_constant right' 0 then Ret left'
  else match left', right' with
       | Constant a, Constant b => v <- Py.add a b ;; Ret (Constant v)
       | _, _ => Ret (Add left' right')
       end.

Definition Multiply_rules (left' right' : Expression) : result Expression :=
  if is_constant left' 0 then Ret (Constant (Int 0))
  else if is_constant right' 0 then Ret (Constant (Int 0))
  else if is_constant left' 1 then Ret right'
  else if is_constant right' 1 then Ret left'
  else match left', right' with
       | Constant a, Constant b => v <- Py.mul a b ;; Ret (Constant v)
       | _, _ => Ret (Multiply left' right')
       end.

Definition Power_rules (base' exponent' : Expression) : result Expression :=
  if is_constant exponent' 0 then Ret (Constant (Int 1))
  else if is_constant exponent' 1 then Ret base'
  else match base', exponent' with
       | Constant a, Constant b => v <- Py.pow a b ;; Ret (Constant v)
       | _, _ => Ret (Power base' exponent')
       end.

(** ** [simplify] does not grow a tree

    [differentiate] recurses on the simplified children of a node; that
    this terminates rests on the bound [simplify_size]. *)

Lemma simplify_Add (l r : Expression) :
  simplify (Add l r)
  = (left' <- simplify l ;; right' <- simplify r ;; Add_rules left' right').
Proof. reflexivity. Qed.

Lemma simplify_Multiply (l r : Expression) :
  simplify (Multiply l r)
  = (left' <- simplify l ;; right' <- simplify r ;; Multiply_rules left' right').
Proof. reflexivity. Qed.

Lemma simplify_Power (b e : Expression) :
  simplify (Power b e)
  = (base' <- simplify b ;; exponent' <- simplify e ;; Power_rules base' exponent').
Proof. reflexivity. Qed.

Lemma bind_Ret_inv {A B : Type} (c : result A) (k : A -> result B) (b : B) :
  Py.bind c k = Ret b -> exists a, c = Ret a /\ k a = Ret b.
Proof.
  destruct c as [a | e |]; simpl; intros H; try discriminate.
  exists a; split; [reflexivity | exact H].
Qed.

(** Inversion of a successful [simplify] at a binary node. *)
Lemma simplify_Add_inv (l r e' : Expression) :
  simplify (Add l r) = Ret e' ->
  exists l' r', simplify l = Ret l' /\ simplify r = Ret r'
                /\ Add_rules l' r' = Ret e'.
Proof.
  rewrite simplify_Add. intros H.
  apply bind_Ret_inv in H as (l' & Hl & H).
  apply bind_Ret_inv in H as (r' & Hr & H).
  exists l', r'. auto.
Qed.

Lemma simplify_Multiply_inv (l r e' : Expression) :
  simplify (Multiply l r) = Ret e' ->
  exists l' r', simplify l = Ret l' /\ simplify r = Ret r'
                /\ Multiply_rules l' r' = Ret e'.
Proof.
  rewrite simplify_Multiply. intros H.
  apply bind_Ret_inv in H as (l' & Hl & H).
  apply bind_Ret_inv in H as (r' & Hr & H).
  exists l', r'. auto.
Qed.

Lemma simplify_Power_inv (b e e' : Expression) :
  simplify (Power b e) = Ret e' ->
  exists b' x', simplify b = Ret b' /\ simplify e = Ret x'
                /\ Power_rules b' x' = Ret e'.
Proof.
  rewrite simplify_Power. intros H.
  apply bind_Ret_inv in H as (b' & Hb & H).
  apply bind_Ret_inv in H as (x' & Hx & H).
  exists b', x'. auto.
Qed.

(** Case analysis on which rule produced the result [e'] of a rule
    function applied to [l'] and [r']. *)
Ltac rules_cases H :=
  repeat match type of H with
         | context [if ?c then _ else _] =>
             let E := fresh "E" in destruct c eqn:E
         end;
  try match type of H with
      | context [match ?a with Constant _ => _ | _ => _ end] =>
          destruct a; simpl in H;
          try match type of H with
              | context [match ?b with Constant _ => _ | _ => _ end] =>
                  destruct b; simpl in H
              end
      end.

Lemma Add_rules_size (l' r' e' : Expression) :
  Add_rules l' r' = Ret e' -> (size e' <= S (size l' + size r'))%nat.
Proof.
  unfold Add_rules; intros H; rules_cases H;
    try (injection H as <-; simpl; lia).
  apply bind_Ret_inv in H as (v & _ & H). injection H as <-. simpl; lia.
Qed.

Lemma Multiply_rules_size (l' r' e' : Expression) :
  Multiply_rules l' r' = Ret e' -> (size e' <= S (size l' + size r'))%nat.
Proof.
  unfold Multiply_rules; intros H; rules_cases H;
    try (injection H as <-; simpl; lia).
  apply bind_Ret_inv in H as (v & _ & H). injection H as <-. simpl; lia.
Qed.

Lemma Power_rules_size (b' x' e' : Expression) :
  Power_rules b' x' = Ret e' -> (size e' <= S (size b' + size x'))%nat.
Proof.
  unfold Power_rules; intros H; rules_cases H;
    try (injection H as <-; simpl; lia).
  apply bind_Ret_inv in H as (v & _ & H). injection H as <-. simpl; lia.
Qed.

(** [simplify] never returns a larger tree. *)
Lemma simplify_size (e e' : Expression) :
  simplify e = Ret e' -> (size e' <= size e)%nat.
Proof.
  revert e'.
  induction e as [v | n | l IHl r IHr | l IHl r IHr | b IHb x IHx];
    intros e' H.
  - injection H as <-. simpl; lia.
  - injection H as <-. simpl; lia.
  - apply simplify_Add_inv in H as (l' & r' & Hl & Hr & H).
    apply Add_rules_size in H. apply IHl in Hl. apply IHr in Hr. simpl; lia.
  - apply simplify_Multiply_inv in H as (l' & r' & Hl & Hr & H).
    apply Multiply_rules_size in H. apply IHl in Hl. apply IHr in Hr.
    simpl; lia.
  - apply simplify_Power_inv in H as (b' & x' & Hb & Hx & H).
    apply Power_rules_size in H. apply IHb in Hb. apply IHx in Hx.
    simpl; lia.
Qed.

Definition inspect {A : Type} (a : A) : {b : A | a = b} := exist _ a eq_refl.

(** [differentiate(self, var)] ([var] defaults to ['x'] in the source).
    Each binary class first simplifies its two children and then
    differentiates the simplified children, which are not subterms of
    [self]: the recursion is on [size].  An outcome [stop] of a child's
    [simplify] other than a returned tree ends the call with that
    outcome. *)
Equations? differentiate (self : Expression) (var : string)
  : result Expression by wf (size self) lt :=
  differentiate (Constant _) _ := Ret (Constant (Int 0));
  differentiate (Var name) var :=
    Ret (if String.eqb name var then Constant (Int 1) else Constant (Int 0));
  differentiate (Add l r) var with inspect (simplify l) := {
    | exist _ (Ret left') Hl with inspect (simplify r) := {
      | exist _ (Ret right') Hr :=
          Py.map2 Add (differentiate left' var) (differentiate right' var);
      | exist _ stop _ := stop };
    | exist _ stop _ := stop };
  differentiate (Multiply l r) var with inspect (simplify l) := {
    | exist _ (Ret left') Hl with inspect (simplify r) := {
      | exist _ (Ret right') Hr :=
          Py.map2 (fun dl dr => Add (Multiply dl right') (Multiply left' dr))
                  (differentiate left' var) (differentiate right' var);
      | exist _ stop _ := stop };
    | exist _ stop _ := stop };
  differentiate (Power b e) var with inspect (simplify b) := {
    | exist _ (Ret base') Hb with inspect (simplify e) := {
      | exist _ (Ret exponent') He :=
          Py.map
            (fun db =>
               Multiply
                 (Multiply exponent'
                    (Power base' (Add exponent' (Constant (Int (-1))))))
                 db)
            (differentiate base' var);
      | exist _ stop _ := stop };
    | exist _ stop _ := stop }.
Proof.
  all: repeat match goal with
         | H : simplify _ = Ret _ |- _ => apply simplify_size in H
         end; simpl; lia.
Qed.

(** The rendering of each class, fully parenthesised. *)
Fixpoint __str__ (self : Expression) : string :=
  match self with
  | Constant value => Py.str value
  | Var name => name
  | Add l r => "(" ++ __str__ l ++ " + " ++ __str__ r ++ ")"
  | Multiply l r => "(" ++ __str__ l ++ " * " ++ __str__ r ++ ")"
  | Power b e => "(" ++ __str__ b ++ "^" ++ __str__ e ++ ")"
  end.

(** ** Reduced form

    The shape no rule of [simplify] applies to: no identity or
    annihilator operand and no node with two constant children. *)

(** [isinstance(e, Constant)] *)
Definition is_Constant (e : Expression) : bool :=
  match e with
  | Constant _ => true
  | _ => false
  end.

Fixpoint reduced (e : Expression) : bool :=
  match e with
  | Constant _ | Var _ => true
  | Add l r =>
      reduced l && reduced r
      && negb (is_constant l 0) && negb (is_constant r 0)
      && negb (is_Constant l && is_Constant r)
  | Multiply l r =>
      reduced l && reduced r
      && negb (is_constant l 0) && negb (is_constant r 0)
      && negb (is_constant l 1) && negb (is_constant r 1)
      && negb (is_Constant l && is_Constant r)
  | Power b e =>
      reduced b && reduced e
      && negb (is_constant e 0) && negb (is_constant e 1)
      && negb (is_Constant b && is_Constant e)
  end.

(** [Var v] occurs in [e]. *)
Fixpoint occurs (v : string) (e : Expression) : bool :=
  match e with
  | Constant _ => false
  | Var name => String.eqb name v
  | Add l r | Multiply l r | Power l r => occurs v l || occurs v r
  end.

(** Trees built from integer constants, variables, sums and products
    only. *)
Fixpoint sums_and_products (e : Expression) : bool :=
  match e with
  | Constant (Int _) => true
  | Constant NoneValue => false
  | Var _ => true
  | Add l r | Multiply l r => sums_and_products l && sums_and_products r
  | Power _ _ => false
  end.

(** ** The worked example and the two composite computations *)

Definition x : Expression := Var "x".

(** [3 * x**2 + 2 * x + 1], the node tree of the demonstration. *)
Definition f : Expression :=
  Add (Add (Multiply (Constant (Int 3)) (Power x (Constant (Int 2))))
           (Multiply (Constant (Int 2)) x))
      (Constant (Int 1)).

(** [e.differentiate(var).simplify()] *)
Definition simplified_derivative (e : Expression) (var : string)
  : result Expression :=
  d <- differentiate e var ;; simplify d.

(** [Add(a.differentiate(var), b.differentiate(var)).simplify()] *)
Definition sum_of_derivatives (a b : Expression) (var : string)
  : result Expression :=
  da <- differentiate a var ;; db <- differentiate b var ;;
  simplify (Add da db).

(** [a - b] as the interpreter dispatches it: [__sub__] of the left
    operand when that is an [Expression], otherwise [__rsub__] of the
    right operand; with no [Expression] among the operands no method
    of this module is called. *)
Definition subtract (a b : operand) : option Expression :=
  match a, b with
  | Instance e, _ => Some (__sub__ e b)
  | Object _, Instance e => Some (__rsub__ e a)
  | Object _, Object _ => None
  end.

(** Whether a raw operand is a number. *)
Definition numeric (v : Py.value) : bool :=
  match v with
  | Int _ => true
  | NoneValue => false
  end.

(** ** Class names and [__repr__] *)

(** [self.__class__.__name__] *)
Definition class_name (self : Expression) : string :=
  match self with
  | Constant _ => "Constant"
  | Var _ => "Variable"
  | Add _ _ => "Add"
  | Multiply _ _ => "Multiply"
  | Power _ _ => "Power"
  end.

Definition __repr__ (self : Expression) : string :=
  class_name self ++ ": " ++ __str__ self.

(** ** Reference notions for the further properties *)

(** [Constant] and [Variable] nodes. *)
Definition is_leaf (e : Expression) : bool :=
  match e with
  | Constant _ | Var _ => true
  | _ => false
  end.

(** The rules of the five [differentiate] methods applied to the tree as
    it stands, with no child simplified on the way. *)
Fixpoint rules_without_simplify (e : Expression) (var : string) : Expression :=
  match e with
  | Constant _ => Constant (Int 0)
  | Var name =>
      if String.eqb name var then Constant (Int 1) else Constant (Int 0)
  | Add l r =>
      Add (rules_without_simplify l var) (rules_without_simplify r var)
  | Multiply l r =>
      Add (Multiply (rules_without_simplify l var) r)
          (Multiply l (rules_without_simplify r var))
  | Power b e =>
      Multiply (Multiply e (Power b (Add e (Constant (Int (-1))))))
               (rules_without_simplify b var)
  end.

(** The node with both children simplified, left child first; leaves
    have no children.  This is the first step of every [differentiate]
    method. *)
Definition simplify_children (e : Expression) : result Expression :=
  match e with
  | Constant _ | Var _ => Ret e
  | Add l r => l' <- simplify l ;; r' <- simplify r ;; Ret (Add l' r')
  | Multiply l r => l' <- simplify l ;; r' <- simplify r ;; Ret (Multiply l' r')
  | Power l r => l' <- simplify l ;; r' <- simplify r ;; Ret (Power l' r')
  end.

(** The value of a tree when each variable stands for an integer or
    [None]: the operators [+], [*] and [**] of this host, the ones the
    folding rules of [simplify] use, applied bottom up, left operand
    first.  It returns only while the computation stays in the integers;
    nothing is said of values that are floats.  The source has no
    evaluator; this is the meaning against which folding is measured. *)
Fixpoint evaluate (env : string -> Py.value) (e : Expression)
  : result Py.value :=
  match e with
  | Constant v => Ret v
  | Var name => Ret (env name)
  | Add l r => a <- evaluate env l ;; b <- evaluate env r ;; Py.add a b
  | Multiply l r => a <- evaluate env l ;; b <- evaluate env r ;; Py.mul a b
  | Power l r => a <- evaluate env l ;; b <- evaluate env r ;; Py.pow a b
  end.

(** [e2] has the value of [e1] whenever [e1] has one. *)
Definition same_value (env : string -> Py.value) (e1 e2 : Expression) : Prop :=
  forall z, evaluate env e1 = Ret z -> evaluate env e2 = Ret z.

(** Every [Constant] of the tree holds an integer. *)
Fixpoint integer_constants (e : Expression) : bool :=
  match e with
  | Constant (Int _) => true
  | Constant NoneValue => false
  | Var _ => true
  | Add l r | Multiply l r | Power l r =>
      integer_constants l && integer_constants r
  end.

(** No [Variable] node occurs in [e]. *)
Fixpoint variable_free (e : Expression) : bool :=
  match e with
  | Constant _ => true
  | Var _ => false
  | Add l r | Multiply l r | Power l r => variable_free l && variable_free r
  end.

(** ** Renderings that can be read back *)

(** The characters that separate the parts of a rendering. *)
Definition delimiter (c : ascii) : bool :=
  Ascii.eqb c "(" || Ascii.eqb c ")" || Ascii.eqb c " " || Ascii.eqb c "^".

Fixpoint free_of_delimiters (s : string) : bool :=
  match s with
  | EmptyString => true
  | String c s' => negb (delimiter c) && free_of_delimiters s'
  end.

(** The characters a rendered integer can start with. *)
Definition digit_or_minus (c : ascii) : bool :=
  Ascii.eqb c "-" || Ascii.eqb c "0" || Ascii.eqb c "1" || Ascii.eqb c "2"
  || Ascii.eqb c "3" || Ascii.eqb c "4" || Ascii.eqb c "5" || Ascii.eqb c "6"
  || Ascii.eqb c "7" || Ascii.eqb c "8" || Ascii.eqb c "9".

(** A name that cannot be mistaken for a constant or for a part of the
    rendering of a node: not empty, not starting like a number,
    not [None], and free of parentheses, spaces and carets. *)
Definition proper_name (n : string) : bool :=
  match n with
  | EmptyString => false
  | String c _ =>
      negb (digit_or_minus c) && negb (String.eqb n "None")
      && free_of_delimiters n
  end.

(** Every [Variable] of the tree has such a name. *)
Fixpoint proper_names (e : Expression) : bool :=
  match e with
  | Constant _ => true
  | Var n => proper_name n
  | Add l r | Multiply l r | Power l r => proper_names l && proper_names r
  end.

(** What may follow the rendering of a subtree inside a rendering:
    nothing, or a delimiter. *)
Definition boundary (t : string) : bool :=
  match t with
  | EmptyString => true
  | String c _ => delimiter c
  end.

(** The rendering of [e1] followed by a boundary can be read in one way
    only. *)
Definition unique_from (e1 : Expression) : Prop :=
  forall e2 t1 t2,
    proper_names e1 = true -> proper_names e2 = true ->
    boundary t1 = true -> boundary t2 = true ->
    __str__ e1 ++ t1 = __str__ e2 ++ t2 -> e1 = e2 /\ t1 = t2.

(** The three infixes of [__str__]. *)
Definition operator_text (op : string) : Prop :=
  op = " + " \/ op = " * " \/ op = "^".

(** ** The same classes over any host

    The classes again, with the values a [Constant] can hold and the
    host's operators on them left open: [value] is any type of objects,
    [of_int k] is the integer literal [k], [eq_int v k] is the truth
    value of [v == k] for an integer literal [k], [add], [mul] and [pow]
    are [+], [*] and [**], which return an object or raise, and [str] is
    [str].  Floats, [None] and every other object are values of a host:
    Python with its floats, where [2 ** -1] is [0.5], [1.0 == 1] holds
    and [str] of a float infinity is [inf], is one, whose float
    arithmetic is that of the platform and is not spelled out here.  The
    methods below are the methods of the source whatever the host does
    on its values. *)

Module Generic.

Record Host : Type := {
  value : Type;
  of_int : Z -> value;
  eq_int : value -> Z -> bool;
  add : value -> value -> result value;
  mul : value -> value -> result value;
  pow : value -> value -> result value;
  str : value -> string
}.

(** What is known of a host that computes on integers as Python does:
    integer literals compare, add and multiply as integers, and [**]
    with a non-negative integer exponent is the integer power. *)
Record Lawful (H : Host) : Prop := {
  eq_of_int : forall a k : Z, eq_int H (of_int H a) k = Z.eqb a k;
  add_of_int : forall a b : Z,
      add H (of_int H a) (of_int H b) = Ret (of_int H (a + b));
  mul_of_int : forall a b : Z,
      mul H (of_int H a) (of_int H b) = Ret (of_int H (a * b));
  pow_of_int : forall a b : Z,
      (0 <= b)%Z ->
      pow H (of_int H a) (of_int H b) = Ret (of_int H (a ^ b))
}.

Inductive Expression (V : Type) : Type :=
| Constant (value : V)
| Var (name : string)
| Add (left right : Expression V)
| Multiply (left right : Expression V)
| Power (base exponent : Expression V).

Arguments Constant {V} value.
Arguments Var {V} name.
Arguments Add {V} left right.
Arguments Multiply {V} left right.
Arguments Power {V} base exponent.

Inductive operand (V : Type) : Type :=
| Instance (e : Expression V)
| Object (v : V).

Arguments Instance {V} e.
Arguments Object {V} v.

(** Number of nodes. *)
Fixpoint size {V : Type} (e : Expression V) : nat :=
  match e with
  | Constant _ | Var _ => 1
  | Add l r | Multiply l r | Power l r => S (size l + size r)
  end.

(** [isinstance(e, Constant)] *)
Definition is_Constant {V : Type} (e : Expression V) : bool :=
  match e with
  | Constant _ => true
  | _ => false
  end.

(** [Constant] and [Variable] nodes. *)
Definition is_leaf {V : Type} (e : Expression V) : bool :=
  match e with
  | Constant _ | Var _ => true
  | _ => false
  end.

(** [Var v] occurs in [e]. *)
Fixpoint occurs {V : Type} (v : string) (e : Expression V) : bool :=
  match e with
  | Constant _ => false
  | Var name => String.eqb name v
  | Add l r | Multiply l r | Power l r => occurs v l || occurs v r
  end.

Section Methods.

Context (H : Host).

Definition to_expression (value : operand (Generic.value H))
  : Expression (Generic.value H) :=
  match value with
  | Instance e => e
  | Object v => Constant v
  end.

Definition __add__ (self : Expression (value H)) (other : operand (value H))
  : Expression (value H) :=
  Add self (to_expression other).

Definition __radd__ (self : Expression (value H)) (other : operand (value H))
  : Expression (value H) :=
  Add (to_expression other) self.

Definition __sub__ (self : Expression (value H)) (other : operand (value H))
  : Expression (value H) :=
  Add self (Multiply (Constant (of_int H (-1))) (to_expression other)).

Definition __rsub__ (self : Expression (value H)) (other : operand (value H))
  : Expression (value H) :=
  Add (to_expression other) (Multiply (Constant (of_int H (-1))) self).

Definition __mul__ (self : Expression (value H)) (other : operand (value H))
  : Expression (value H) :=
  Multiply self (to_expression other).

Definition __rmul__ (self : Expression (value H)) (other : operand (value H))
  : Expression (value H) :=
  Multiply (to_expression other) self.

Definition __pow__ (self : Expression (value H)) (other : operand (value H))
  : Expression (value H) :=
  Power self (to_expression other).

(** [isinstance(e, Constant) and e.value == k] *)
Definition is_constant (e : Expression (value H)) (k : Z) : bool :=
  match e with
  | Constant v => eq_int H v k
  | _ => false
  end.

Fixpoint simplify (self : Expression (value H))
  : result (Expression (value H)) :=
  match self with
  | Constant _ => Ret self
  | Var _ => Ret self
  | Add l r =>
      left' <- simplify l ;;
      right' <- simplify r ;;
      if is_constant left' 0 then Ret right'
      else if is_constant right' 0 then Ret left'
      else match left', right' with
           | Constant a, Constant b => v <- add H a b ;; Ret (Constant v)
           | _, _ => Ret (Add left' right')
           end
  | Multiply l r =>
      left' <- simplify l ;;
      right' <- simplify r ;;
      if is_constant left' 0 then Ret (Constant (of_int H 0))
      else if is_constant right' 0 then Ret (Constant (of_int H 0))
      else if is_constant left' 1 then Ret right'
      else if is_constant right' 1 then Ret left'
      else match left', right' with
           | Constant a, Constant b => v <- mul H a b ;; Ret (Constant v)
           | _, _ => Ret (Multiply left' right')
           end
  | Power b e =>
      base' <- simplify b ;;
      exponent' <- simplify e ;;
      if is_constant exponent' 0 then Ret (Constant (of_int H 1))
      else if is_constant exponent' 1 then Ret base'
      else match base', exponent' with
           | Constant a, Constant b => v <- pow H a b ;; Ret (Constant v)
           | _, _ => Ret (Power base' exponent')
           end
  end.

(** The rules of the three [simplify] methods as functions of the
    simplified children. *)
Definition Add_rules (left' right' : Expression (value H))
  : result (Expression (value H)) :=
  if is_constant left' 0 then Ret right'
  else if is_constant right' 0 then Ret left'
  else match left', right' with
       | Constant a, Constant b => v <- add H a b ;; Ret (Constant v)
       | _, _ => Ret (Add left' right')
       end.

Definition Multiply_rules (left' right' : Expression (value H))
  : result (Expression (value H)) :=
  if is_constant left' 0 then Ret (Constant (of_int H 0))
  else if is_constant right' 0 then Ret (Constant (of_int H 0))
  else if is_constant left' 1 then Ret right'
  else if is_constant right' 1 then Ret left'
  else match left', right' with
       | Constant a, Constant b => v <- mul H a b ;; Ret (Constant v)
       | _, _ => Ret (Multiply left' right')
       end.

Definition Power_rules (base' exponent' : Expression (value H))
  : result (Expression (value H)) :=
  if is_constant exponent' 0 then Ret (Constant (of_int H 1))
  else if is_constant exponent' 1 then Ret base'
  else match base', exponent' with
       | Constant a, Constant b => v <- pow H a b ;; Ret (Constant v)
       | _, _ => Ret (Power base' exponent')
       end.

Lemma any_simplify_Add (l r : Expression (value H)) :
  simplify (Add l r)
  = (left' <- simplify l ;; right' <- simplify r ;; Add_rules left' right').
Proof. reflexivity. Qed.

Lemma any_simplify_Multiply (l r : Expression (value H)) :
  simplify (Multiply l r)
  = (left' <- simplify l ;; right' <- simplify r ;; Multiply_rules left' right').
Proof. reflexivity. Qed.

Lemma any_simplify_Power (b e : Expression (value H)) :
  simplify (Power b e)
  = (base' <- simplify b ;; exponent' <- simplify e ;;
     Power_rules base' exponent').
Proof. reflexivity. Qed.

Lemma bind_returns {A B : Type} (c : result A) (k : A -> result B) (b : B) :
  Py.bind c k = Ret b -> exists a, c = Ret a /\ k a = Ret b.
Proof.
  destruct c as [a | e |]; simpl; intros E; try discriminate.
  exists a; split; [reflexivity | exact E].
Qed.

Lemma any_simplify_Add_inv (l r e' : Expression (value H)) :
  simplify (Add l r) = Ret e' ->
  exists l' r', simplify l = Ret l' /\ simplify r = Ret r'
                /\ Add_rules l' r' = Ret e'.
Proof.
  rewrite any_simplify_Add. intros E.
  apply bind_returns in E as (l' & Hl & E).
  apply bind_returns in E as (r' & Hr & E).
  exists l', r'. auto.
Qed.

Lemma any_simplify_Multiply_inv (l r e' : Expression (value H)) :
  simplify (Multiply l r) = Ret e' ->
  exists l' r', simplify l = Ret l' /\ simplify r = Ret r'
                /\ Multiply_rules l' r' = Ret e'.
Proof.
  rewrite any_simplify_Multiply. intros E.
  apply bind_returns in E as (l' & Hl & E).
  apply bind_returns in E as (r' & Hr & E).
  exists l', r'. auto.
Qed.

Lemma any_simplify_Power_inv (b e e' : Expression (value H)) :
  simplify (Power b e) = Ret e' ->
  exists b' x', simplify b = Ret b' /\ simplify e = Ret x'
                /\ Power_rules b' x' = Ret e'.
Proof.
  rewrite any_simplify_Power. intros E.
  apply bind_returns in E as (b' & Hb & E).
  apply bind_returns in E as (x' & Hx & E).
  exists b', x'. auto.
Qed.

Ltac any_rules_cases E :=
  repeat match type of E with
         | context [if ?c then _ else _] =>
             let Q := fresh "Q" in destruct c eqn:Q
         end;
  try match type of E with
      | context [match ?a with Constant _ => _ | _ => _ end] =>
          destruct a; simpl in E;
          try match type of E with
              | context [match ?b with Constant _ => _ | _ => _ end] =>
                  destruct b; simpl in E
              end
      end.

Lemma any_Add_rules_size (l' r' e' : Expression (value H)) :
  Add_rules l' r' = Ret e' -> (size e' <= S (size l' + size r'))%nat.
Proof.
  unfold Add_rules; intros E; any_rules_cases E;
    try (injection E as <-; simpl; lia).
  apply bind_returns in E as (v & _ & E). injection E as <-. simpl; lia.
Qed.

Lemma any_Multiply_rules_size (l' r' e' : Expression (value H)) :
  Multiply_rules l' r' = Ret e' -> (size e' <= S (size l' + size r'))%nat.
Proof.
  unfold Multiply_rules; intros E; any_rules_cases E;
    try (injection E as <-; simpl; lia).
  apply bind_returns in E as (v & _ & E). injection E as <-. simpl; lia.
Qed.

Lemma any_Power_rules_size (b' x' e' : Expression (value H)) :
  Power_rules b' x' = Ret e' -> (size e' <= S (size b' + size x'))%nat.
Proof.
  unfold Power_rules; intros E; any_rules_cases E;
    try (injection E as <-; simpl; lia).
  apply bind_returns in E as (v & _ & E). injection E as <-. simpl; lia.
Qed.

(** [simplify] never returns a larger tree, on any host. *)
Lemma any_simplify_size (e e' : Expression (value H)) :
  simplify e = Ret e' -> (size e' <= size e)%nat.
Proof.
  revert e'.
  induction e as [v | n | l IHl r IHr | l IHl r IHr | b IHb x IHx];
    intros e' E.
  - injection E as <-. simpl; lia.
  - injection E as <-. simpl; lia.
  - apply any_simplify_Add_inv in E as (l' & r' & Hl & Hr & E).
    apply any_Add_rules_size in E. apply IHl in Hl. apply IHr in Hr.
    simpl; lia.
  - apply any_simplify_Multiply_inv in E as (l' & r' & Hl & Hr & E).
    apply any_Multiply_rules_size in E. apply IHl in Hl. apply IHr in Hr.
    simpl; lia.
  - apply any_simplify_Power_inv in E as (b' & x' & Hb & Hx & E).
    apply any_Power_rules_size in E. apply IHb in Hb. apply IHx in Hx.
    simpl; lia.
Qed.

(** [differentiate(self, var)]: each binary class simplifies its two
    children and differentiates the simplified children; the recursion
    is on [size]. *)
Equations? differentiate (self : Expression (value H)) (var : string)
  : result (Expression (value H)) by wf (size self) lt :=
  differentiate (Constant _) _ := Ret (Constant (of_int H 0));
  differentiate (Var name) var :=
    Ret (if String.eqb name var
         then Constant (of_int H 1) else Constant (of_int H 0));
  differentiate (Add l r) var with inspect (simplify l) := {
    | exist _ (Ret left') Hl with inspect (simplify r) := {
      | exist _ (Ret right') Hr :=
          Py.map2 Add (differentiate left' var) (differentiate right' var);
      | exist _ stop _ := stop };
    | exist _ stop _ := stop };
  differentiate (Multiply l r) var with inspect (simplify l) := {
    | exist _ (Ret left') Hl with inspect (simplify r) := {
      | exist _ (Ret right') Hr :=
          Py.map2 (fun dl dr => Add (Multiply dl right') (Multiply left' dr))
                  (differentiate left' var) (differentiate right' var);
      | exist _ stop _ := stop };
    | exist _ stop _ := stop };
  differentiate (Power b e) var with inspect (simplify b) := {
    | exist _ (Ret base') Hb with inspect (simplify e) := {
      | exist _ (Ret exponent') He :=
          Py.map
            (fun db =>
               Multiply
                 (Multiply exponent'
                    (Power base' (Add exponent' (Constant (of_int H (-1))))))
                 db)
            (differentiate base' var);
      | exist _ stop _ := stop };
    | exist _ stop _ := stop }.
Proof.
  all: repeat match goal with
         | E : simplify _ = Ret _ |- _ => apply any_simplify_size in E
         end; simpl; lia.
Qed.

Fixpoint __str__ (self : Expression (value H)) : string :=
  match self with
  | Constant value => str H value
  | Var name => name
  | Add l r => "(" ++ __str__ l ++ " + " ++ __str__ r ++ ")"
  | Multiply l r => "(" ++ __str__ l ++ " * " ++ __str__ r ++ ")"
  | Power b e => "(" ++ __str__ b ++ "^" ++ __str__ e ++ ")"
  end.

(** Reduced form: no rule of [simplify] applies at any node. *)
Fixpoint reduced (e : Expression (value H)) : bool :=
  match e with
  | Constant _ | Var _ => true
  | Add l r =>
      reduced l && reduced r
      && negb (is_constant l 0) && negb (is_constant r 0)
      && negb (is_Constant l && is_Constant r)
  | Multiply l r =>
      reduced l && reduced r
      && negb (is_constant l 0) && negb (is_constant r 0)
      && negb (is_constant l 1) && negb (is_constant r 1)
      && negb (is_Constant l && is_Constant r)
  | Power b e =>
      reduced b && reduced e
      && negb (is_constant e 0) && negb (is_constant e 1)
      && negb (is_Constant b && is_Constant e)
  end.

(** The rules of the five [differentiate] methods applied to the tree as
    it stands, with no child simplified on the way. *)
Fixpoint rules_without_simplify (e : Expression (value H)) (var : string)
  : Expression (value H) :=
  match e with
  | Constant _ => Constant (of_int H 0)
  | Var name =>
      if String.eqb name var
      then Constant (of_int H 1) else Constant (of_int H 0)
  | Add l r =>
      Add (rules_without_simplify l var) (rules_without_simplify r var)
  | Multiply l r =>
      Add (Multiply (rules_without_simplify l var) r)
          (Multiply l (rules_without_simplify r var))
  | Power b e =>
      Multiply (Multiply e (Power b (Add e (Constant (of_int H (-1))))))
               (rules_without_simplify b var)
  end.

(** The node with both children simplified, left child first. *)
Definition simplify_children (e : Expression (value H))
  : result (Expression (value H)) :=
  match e with
  | Constant _ | Var _ => Ret e
  | Add l r => l' <- simplify l ;; r' <- simplify r ;; Ret (Add l' r')
  | Multiply l r => l' <- simplify l ;; r' <- simplify r ;; Ret (Multiply l' r')
  | Power l r => l' <- simplify l ;; r' <- simplify r ;; Ret (Power l' r')
  end.

(** [e.differentiate(var).simplify()] *)
Definition simplified_derivative (e : Expression (value H)) (var : string)
  : result (Expression (value H)) :=
  d <- differentiate e var ;; simplify d.

(** [Add(a.differentiate(var), b.differentiate(var)).simplify()] *)
Definition sum_of_derivatives (a b : Expression (value H)) (var : string)
  : result (Expression (value H)) :=
  da <- differentiate a var ;; db <- differentiate b var ;;
  simplify (Add da db).


End Methods.

End Generic.

(** ** The host of integers and [None] among the hosts

    [Py] is a host: it computes on integers as Python does, and it stops
    where Python would go on with a float. *)

Definition integer_host : Generic.Host :=
  {| Generic.value := Py.value;
     Generic.of_int := Int;
     Generic.eq_int := Py.eq_int;
     Generic.add := Py.add;
     Generic.mul := Py.mul;
     Generic.pow := Py.pow;
     Generic.str := Py.str |}.

(** A tree of integer constants is a tree over every host, its constants
    being the integer literals of that host; a tree that holds [None]
    has no such reading. *)
Fixpoint embed (H : Generic.Host) (e : Expression)
  : option (Generic.Expression (Generic.value H)) :=
  match e with
  | Constant (Int z) => Some (Generic.Constant (Generic.of_int H z))
  | Constant NoneValue => None
  | Var name => Some (Generic.Var name)
  | Add l r =>
      match embed H l, embed H r with
      | Some l', Some r' => Some (Generic.Add l' r')
      | _, _ => None
      end
  | Multiply l r =>
      match embed H l, embed H r with
      | Some l', Some r' => Some (Generic.Multiply l' r')
      | _, _ => None
      end
  | Power l r =>
      match embed H l, embed H r with
      | Some l', Some r' => Some (Generic.Power l' r')
      | _, _ => None
      end
  end.

(** * Lemmas *)

(** ** Defining equations of [differentiate]

    The equations of the source, one per class, with the simplification
    of the children and the recursive calls sequenced as the method
    bodies sequence them. *)

Lemma differentiate_Constant (value : Py.value) (var : string) :
  differentiate (Constant value) var = Ret (Constant (Int 0)).
Proof. now simp differentiate. Qed.

Lemma differentiate_Var (name var : string) :
  differentiate (Var name) var
  = Ret (if String.eqb name var then Constant (Int 1) else Constant (Int 0)).
Proof. now simp differentiate. Qed.

Lemma differentiate_Add (l r : Expression) (var : string) :
  differentiate (Add l r) var
  = (left' <- simplify l ;; right' <- simplify r ;;
     dl <- differentiate left' var ;; dr <- differentiate right' var ;;
     Ret (Add dl dr)).
Proof.
  rewrite differentiate_equation_3. unfold inspect.
  enough (G : forall (c : result Expression) (H : simplify l = c),
             differentiate_unfold_clause_3 l (exist _ c H) r var
             = (left' <- c ;; right' <- simplify r ;;
                dl <- differentiate left' var ;;
                dr <- differentiate right' var ;; Ret (Add dl dr)))
    by apply G.
  intros [left' | err |] Hl; simpl; try reflexivity.
  enough (G : forall (c : result Expression) (H : simplify r = c),
             differentiate_unfold_clause_3_clause_1 l left' Hl r
               (exist _ c H) var
             = (right' <- c ;; dl <- differentiate left' var ;;
                dr <- differentiate right' var ;; Ret (Add dl dr)))
    by apply G.
  intros [right' | err |] Hr; reflexivity.
Qed.

Lemma differentiate_Multiply (l r : Expression) (var : string) :
  differentiate (Multiply l r) var
  = (left' <- simplify l ;; right' <- simplify r ;;
     dl <- differentiate left' var ;; dr <- differentiate right' var ;;
     Ret (Add (Multiply dl right') (Multiply left' dr))).
Proof.
  rewrite differentiate_equation_4. unfold inspect.
  enough (G : forall (c : result Expression) (H : simplify l = c),
             differentiate_unfold_clause_4 l (exist _ c H) r var
             = (left' <- c ;; right' <- simplify r ;;
                dl <- differentiate left' var ;;
                dr <- differentiate right' var ;;
                Ret (Add (Multiply dl right') (Multiply left' dr))))
    by apply G.
  intros [left' | err |] Hl; simpl; try reflexivity.
  enough (G : forall (c : result Expression) (H : simplify r = c),
             differentiate_unfold_clause_4_clause_1 l left' Hl r
               (exist _ c H) var
             = (right' <- c ;; dl <- differentiate left' var ;;
                dr <- differentiate right' var ;;
                Ret (Add (Multiply dl right') (Multiply left' dr))))
    by apply G.
  intros [right' | err |] Hr; reflexivity.
Qed.

Lemma differentiate_Power (b e : Expression) (var : string) :
  differentiate (Power b e) var
  = (base' <- simplify b ;; exponent' <- simplify e ;;
     db <- differentiate base' var ;;
     Ret (Multiply
            (Multiply exponent'
               (Power base' (Add exponent' (Constant (Int (-1))))))
            db)).
Proof.
  rewrite differentiate_equation_5. unfold inspect.
  enough (G : forall (c : result Expression) (H : simplify b = c),
             differentiate_unfold_clause_5 b (exist _ c H) e var
             = (base' <- c ;; exponent' <- simplify e ;;
                db <- differentiate base' var ;;
                Ret (Multiply
                       (Multiply exponent'
                          (Power base'
                             (Add exponent' (Constant (Int (-1))))))
                       db)))
    by apply G.
  intros [base' | err |] Hb; simpl; try reflexivity.
  enough (G : forall (c : result Expression) (H : simplify e = c),
             differentiate_unfold_clause_5_clause_1 b base' Hb e
               (exist _ c H) var
             = (exponent' <- c ;; db <- differentiate base' var ;;
                Ret (Multiply
                       (Multiply exponent'
                          (Power base'
                             (Add exponent' (Constant (Int (-1))))))
                       db)))
    by apply G.
  intros [exponent' | err |] He; reflexivity.
Qed.

(** ** Reduced form is what [simplify] returns and leaves alone *)

Ltac split_andb :=
  repeat match goal with
         | H : _ && _ = true |- _ => apply andb_prop in H as [? ?]
         | H : negb _ = true |- _ => apply negb_true_iff in H
         end.

Lemma Add_rules_reduced (l' r' e' : Expression) :
  Add_rules l' r' = Ret e' ->
  reduced l' = true -> reduced r' = true -> reduced e' = true.
Proof.
  unfold Add_rules; intros H Hl Hr; rules_cases H;
    try (injection H as <-; simpl in *; auto;
         rewrite ?Hl, ?Hr, ?E, ?E0; reflexivity).
  apply bind_Ret_inv in H as (v & _ & H). injection H as <-. reflexivity.
Qed.

Lemma Multiply_rules_reduced (l' r' e' : Expression) :
  Multiply_rules l' r' = Ret e' ->
  reduced l' = true -> reduced r' = true -> reduced e' = true.
Proof.
  unfold Multiply_rules; intros H Hl Hr; rules_cases H;
    try (injection H as <-; simpl in *; auto;
         rewrite ?Hl, ?Hr, ?E, ?E0, ?E1, ?E2; reflexivity).
  apply bind_Ret_inv in H as (v & _ & H). injection H as <-. reflexivity.
Qed.

Lemma Power_rules_reduced (b' x' e' : Expression) :
  Power_rules b' x' = Ret e' ->
  reduced b' = true -> reduced x' = true -> reduced e' = true.
Proof.
  unfold Power_rules; intros H Hb Hx; rules_cases H;
    try (injection H as <-; simpl in *; auto;
         rewrite ?Hb, ?Hx, ?E, ?E0; reflexivity).
  apply bind_Ret_inv in H as (v & _ & H). injection H as <-. reflexivity.
Qed.

Lemma simplify_reduced (e e' : Expression) :
  simplify e = Ret e' -> reduced e' = true.
Proof.
  revert e'.
  induction e as [v | n | l IHl r IHr | l IHl r IHr | b IHb x IHx];
    intros e' H.
  - injection H as <-. reflexivity.
  - injection H as <-. reflexivity.
  - apply simplify_Add_inv in H as (l' & r' & Hl & Hr & H).
    eapply Add_rules_reduced; eauto.
  - apply simplify_Multiply_inv in H as (l' & r' & Hl & Hr & H).
    eapply Multiply_rules_reduced; eauto.
  - apply simplify_Power_inv in H as (b' & x' & Hb & Hx & H).
    eapply Power_rules_reduced; eauto.
Qed.

(** On a node in reduced form every rule falls through to the
    reconstruction of the node. *)
Lemma reduced_Add_rules (l r : Expression) :
  reduced (Add l r) = true -> Add_rules l r = Ret (Add l r).
Proof.
  simpl; intros H; split_andb. unfold Add_rules.
  repeat match goal with E : is_constant _ _ = false |- _ => rewrite E; clear E end.
  destruct l, r; simpl in *; try reflexivity; discriminate.
Qed.

Lemma reduced_Multiply_rules (l r : Expression) :
  reduced (Multiply l r) = true -> Multiply_rules l r = Ret (Multiply l r).
Proof.
  simpl; intros H; split_andb. unfold Multiply_rules.
  repeat match goal with E : is_constant _ _ = false |- _ => rewrite E; clear E end.
  destruct l, r; simpl in *; try reflexivity; discriminate.
Qed.

Lemma reduced_Power_rules (b e : Expression) :
  reduced (Power b e) = true -> Power_rules b e = Ret (Power b e).
Proof.
  simpl; intros H; split_andb. unfold Power_rules.
  repeat match goal with E : is_constant _ _ = false |- _ => rewrite E; clear E end.
  destruct b, e; simpl in *; try reflexivity; discriminate.
Qed.

Lemma reduced_children (e l r : Expression) :
  e = Add l r \/ e = Multiply l r \/ e = Power l r ->
  reduced e = true -> reduced l = true /\ reduced r = true.
Proof.
  intros [-> | [-> | ->]]; simpl; intros H; split_andb; auto.
Qed.

(** A tree in reduced form is returned unchanged. *)
Lemma reduced_simplify (e : Expression) :
  reduced e = true -> simplify e = Ret e.
Proof.
  induction e as [v | n | l IHl r IHr | l IHl r IHr | b IHb x IHx];
    intros H; try reflexivity.
  - destruct (reduced_children _ l r (or_introl eq_refl) H) as [Hl Hr].
    rewrite simplify_Add, (IHl Hl), (IHr Hr). simpl.
    now apply reduced_Add_rules.
  - destruct (reduced_children _ l r (or_intror (or_introl eq_refl)) H)
      as [Hl Hr].
    rewrite simplify_Multiply, (IHl Hl), (IHr Hr). simpl.
    now apply reduced_Multiply_rules.
  - destruct (reduced_children _ b x (or_intror (or_intror eq_refl)) H)
      as [Hb Hx].
    rewrite simplify_Power, (IHb Hb), (IHx Hx). simpl.
    now apply reduced_Power_rules.
Qed.

Lemma simplify_simplify (e e' : Expression) :
  simplify e = Ret e' -> simplify e' = Ret e'.
Proof. intros H. apply reduced_simplify. eapply simplify_reduced; eauto. Qed.

(** ** The rules at identity and annihilator operands *)

Lemma is_constant_true (e : Expression) (k : Z) :
  is_constant e k = true -> e = Constant (Int k).
Proof.
  destruct e as [[z |] | | | |]; simpl; intros H; try discriminate.
  apply Z.eqb_eq in H. now subst.
Qed.

Lemma Add_rules_zero_l (r : Expression) :
  Add_rules (Constant (Int 0)) r = Ret r.
Proof. reflexivity. Qed.

Lemma Multiply_rules_zero_l (r : Expression) :
  Multiply_rules (Constant (Int 0)) r = Ret (Constant (Int 0)).
Proof. reflexivity. Qed.

Lemma Multiply_rules_zero_r (l : Expression) :
  Multiply_rules l (Constant (Int 0)) = Ret (Constant (Int 0)).
Proof. unfold Multiply_rules. now destruct (is_constant l 0). Qed.

Lemma Multiply_rules_one_r (l : Expression) :
  Multiply_rules l (Constant (Int 1)) = Ret l.
Proof.
  unfold Multiply_rules. simpl.
  destruct (is_constant l 0) eqn:E0.
  { apply is_constant_true in E0. now subst. }
  destruct (is_constant l 1) eqn:E1; [| reflexivity].
  apply is_constant_true in E1. now subst.
Qed.

(** ** [differentiate] on trees in reduced form *)

Lemma differentiate_Add_reduced (l r : Expression) (var : string) :
  reduced l = true -> reduced r = true ->
  differentiate (Add l r) var
  = (dl <- differentiate l var ;; dr <- differentiate r var ;;
     Ret (Add dl dr)).
Proof.
  intros Hl Hr.
  now rewrite differentiate_Add, (reduced_simplify l Hl), (reduced_simplify r Hr).
Qed.

Lemma differentiate_Multiply_reduced (l r : Expression) (var : string) :
  reduced l = true -> reduced r = true ->
  differentiate (Multiply l r) var
  = (dl <- differentiate l var ;; dr <- differentiate r var ;;
     Ret (Add (Multiply dl r) (Multiply l dr))).
Proof.
  intros Hl Hr.
  now rewrite differentiate_Multiply, (reduced_simplify l Hl),
    (reduced_simplify r Hr).
Qed.

Lemma differentiate_Power_reduced (b e : Expression) (var : string) :
  reduced b = true -> reduced e = true ->
  differentiate (Power b e) var
  = (db <- differentiate b var ;;
     Ret (Multiply (Multiply e (Power b (Add e (Constant (Int (-1)))))) db)).
Proof.
  intros Hb He.
  now rewrite differentiate_Power, (reduced_simplify b Hb),
    (reduced_simplify e He).
Qed.

(** ** Expressions in which the variable does not occur *)

Lemma Add_rules_occurs (v : string) (l' r' e' : Expression) :
  Add_rules l' r' = Ret e' ->
  occurs v l' = false -> occurs v r' = false -> occurs v e' = false.
Proof.
  unfold Add_rules; intros H Hl Hr; rules_cases H;
    try (injection H as <-; simpl in *; rewrite ?Hl, ?Hr; reflexivity).
  apply bind_Ret_inv in H as (w & _ & H). injection H as <-. reflexivity.
Qed.

Lemma Multiply_rules_occurs (v : string) (l' r' e' : Expression) :
  Multiply_rules l' r' = Ret e' ->
  occurs v l' = false -> occurs v r' = false -> occurs v e' = false.
Proof.
  unfold Multiply_rules; intros H Hl Hr; rules_cases H;
    try (injection H as <-; simpl in *; rewrite ?Hl, ?Hr; reflexivity).
  apply bind_Ret_inv in H as (w & _ & H). injection H as <-. reflexivity.
Qed.

Lemma Power_rules_occurs (v : string) (b' x' e' : Expression) :
  Power_rules b' x' = Ret e' ->
  occurs v b' = false -> occurs v x' = false -> occurs v e' = false.
Proof.
  unfold Power_rules; intros H Hb Hx; rules_cases H;
    try (injection H as <-; simpl in *; rewrite ?Hb, ?Hx; reflexivity).
  apply bind_Ret_inv in H as (w & _ & H). injection H as <-. reflexivity.
Qed.

(** [simplify] introduces no variable. *)
Lemma simplify_occurs (v : string) (e e' : Expression) :
  simplify e = Ret e' -> occurs v e = false -> occurs v e' = false.
Proof.
  revert e'.
  induction e as [c | n | l IHl r IHr | l IHl r IHr | b IHb x IHx];
    intros e' H O.
  - now injection H as <-.
  - now injection H as <-.
  - simpl in O. apply orb_false_elim in O as [Ol Or].
    apply simplify_Add_inv in H as (l' & r' & Hl & Hr & H).
    eapply Add_rules_occurs; eauto.
  - simpl in O. apply orb_false_elim in O as [Ol Or].
    apply simplify_Multiply_inv in H as (l' & r' & Hl & Hr & H).
    eapply Multiply_rules_occurs; eauto.
  - simpl in O. apply orb_false_elim in O as [Ob Ox].
    apply simplify_Power_inv in H as (b' & x' & Hb & Hx & H).
    eapply Power_rules_occurs; eauto.
Qed.

(** Induction on the size bound follows the recursion of
    [differentiate], which descends into simplified children. *)
Lemma derivative_without_variable (v : string) (n : nat) :
  forall e d r : Expression,
    (size e <= n)%nat -> occurs v e = false ->
    differentiate e v = Ret d -> simplify d = Ret r ->
    r = Constant (Int 0).
Proof.
  induction n as [| n IH]; intros e d r Hn O Hd Hs.
  { destruct e; simpl in Hn; lia. }
  destruct e as [c | name | l r0 | l r0 | b x].
  - rewrite differentiate_Constant in Hd. injection Hd as <-.
    now injection Hs as <-.
  - rewrite differentiate_Var in Hd. simpl in O. rewrite O in Hd.
    injection Hd as <-. now injection Hs as <-.
  - simpl in O, Hn. apply orb_false_elim in O as [Ol Or].
    rewrite differentiate_Add in Hd.
    apply bind_Ret_inv in Hd as (l' & Hl & Hd).
    apply bind_Ret_inv in Hd as (r' & Hr & Hd).
    apply bind_Ret_inv in Hd as (dl & Dl & Hd).
    apply bind_Ret_inv in Hd as (dr & Dr & Hd).
    injection Hd as <-.
    apply simplify_Add_inv in Hs as (sl & sr & Sl & Sr & Hs).
    pose proof (simplify_size _ _ Hl). pose proof (simplify_size _ _ Hr).
    assert (sl = Constant (Int 0)) as ->
        by (eapply (IH l'); eauto using simplify_occurs; lia).
    assert (sr = Constant (Int 0)) as ->
        by (eapply (IH r'); eauto using simplify_occurs; lia).
    rewrite Add_rules_zero_l in Hs. now injection Hs as <-.
  - simpl in O, Hn. apply orb_false_elim in O as [Ol Or].
    rewrite differentiate_Multiply in Hd.
    apply bind_Ret_inv in Hd as (l' & Hl & Hd).
    apply bind_Ret_inv in Hd as (r' & Hr & Hd).
    apply bind_Ret_inv in Hd as (dl & Dl & Hd).
    apply bind_Ret_inv in Hd as (dr & Dr & Hd).
    injection Hd as <-.
    apply simplify_Add_inv in Hs as (s1 & s2 & S1 & S2 & Hs).
    apply simplify_Multiply_inv in S1 as (sl & r'' & Sl & _ & S1).
    apply simplify_Multiply_inv in S2 as (l'' & sr & _ & Sr & S2).
    pose proof (simplify_size _ _ Hl). pose proof (simplify_size _ _ Hr).
    assert (sl = Constant (Int 0)) as ->
        by (eapply (IH l'); eauto using simplify_occurs; lia).
    assert (sr = Constant (Int 0)) as ->
        by (eapply (IH r'); eauto using simplify_occurs; lia).
    rewrite Multiply_rules_zero_l in S1. injection S1 as <-.
    rewrite Multiply_rules_zero_r in S2. injection S2 as <-.
    rewrite Add_rules_zero_l in Hs. now injection Hs as <-.
  - simpl in O, Hn. apply orb_false_elim in O as [Ob Ox].
    rewrite differentiate_Power in Hd.
    apply bind_Ret_inv in Hd as (b' & Hb & Hd).
    apply bind_Ret_inv in Hd as (x' & Hx & Hd).
    apply bind_Ret_inv in Hd as (db & Db & Hd).
    injection Hd as <-.
    apply simplify_Multiply_inv in Hs as (s1 & sb & _ & Sb & Hs).
    pose proof (simplify_size _ _ Hb).
    assert (sb = Constant (Int 0)) as ->
        by (eapply (IH b'); eauto using simplify_occurs; lia).
    rewrite Multiply_rules_zero_r in Hs. now injection Hs as <-.
Qed.

(** The operators build the demonstration's tree from literals. *)
Example f_from_operators :
  __add__ (__add__ (__rmul__ (__pow__ x (Object (Int 2))) (Object (Int 3)))
                   (Instance (__rmul__ x (Object (Int 2)))))
          (Object (Int 1))
  = f.
Proof. reflexivity. Qed.

Lemma simplified_derivative_f :
  simplified_derivative f "x"
  = Ret (Add (Multiply (Constant (Int 3)) (Multiply (Constant (Int 2)) x))
             (Constant (Int 2))).
Proof. vm_compute. reflexivity. Qed.

(** ** Sums and products of integers never fail

    Integer addition and multiplication always return, so on trees
    without [Power] and without constants that are not integers both
    [simplify] and [differentiate] return. *)

Lemma Add_rules_sums_and_products (l' r' : Expression) :
  sums_and_products l' = true -> sums_and_products r' = true ->
  exists e', Add_rules l' r' = Ret e' /\ sums_and_products e' = true.
Proof.
  intros Hl Hr. unfold Add_rules.
  destruct (is_constant l' 0); [eauto |].
  destruct (is_constant r' 0); [eauto |].
  destruct l' as [[a |] | | | |], r' as [[b |] | | | |];
    simpl in *; try discriminate;
    (eexists; split; [reflexivity |]; simpl; rewrite ?Hl, ?Hr; reflexivity).
Qed.

Lemma Multiply_rules_sums_and_products (l' r' : Expression) :
  sums_and_products l' = true -> sums_and_products r' = true ->
  exists e', Multiply_rules l' r' = Ret e' /\ sums_and_products e' = true.
Proof.
  intros Hl Hr. unfold Multiply_rules.
  destruct (is_constant l' 0); [eauto |].
  destruct (is_constant r' 0); [eauto |].
  destruct (is_constant l' 1); [eauto |].
  destruct (is_constant r' 1); [eauto |].
  destruct l' as [[a |] | | | |], r' as [[b |] | | | |];
    simpl in *; try discriminate;
    (eexists; split; [reflexivity |]; simpl; rewrite ?Hl, ?Hr; reflexivity).
Qed.

Lemma simplify_sums_and_products (e : Expression) :
  sums_and_products e = true ->
  exists e', simplify e = Ret e' /\ sums_and_products e' = true.
Proof.
  induction e as [[z |] | n | l IHl r IHr | l IHl r IHr | b IHb y IHy];
    simpl sums_and_products; intros H; try discriminate;
    try (eexists; split; reflexivity).
  - apply andb_prop in H as [Hl Hr].
    destruct (IHl Hl) as (l' & Sl & Pl), (IHr Hr) as (r' & Sr & Pr).
    rewrite simplify_Add, Sl, Sr. simpl.
    now apply Add_rules_sums_and_products.
  - apply andb_prop in H as [Hl Hr].
    destruct (IHl Hl) as (l' & Sl & Pl), (IHr Hr) as (r' & Sr & Pr).
    rewrite simplify_Multiply, Sl, Sr. simpl.
    now apply Multiply_rules_sums_and_products.
Qed.

Lemma differentiate_sums_and_products (var : string) (n : nat) :
  forall e : Expression,
    (size e <= n)%nat -> sums_and_products e = true ->
    exists d, differentiate e var = Ret d /\ sums_and_products d = true.
Proof.
  induction n as [| n IH]; intros e Hn H.
  { destruct e; simpl in Hn; lia. }
  destruct e as [[z |] | name | l r | l r | b y];
    simpl in H, Hn; try discriminate.
  - rewrite differentiate_Constant. eexists; split; reflexivity.
  - rewrite differentiate_Var.
    destruct (String.eqb name var); eexists; split; reflexivity.
  - apply andb_prop in H as [Hl Hr].
    destruct (simplify_sums_and_products l Hl) as (l' & Sl & Pl).
    destruct (simplify_sums_and_products r Hr) as (r' & Sr & Pr).
    pose proof (simplify_size _ _ Sl). pose proof (simplify_size _ _ Sr).
    destruct (IH l') as (dl & Dl & Ql); [lia | assumption |].
    destruct (IH r') as (dr & Dr & Qr); [lia | assumption |].
    rewrite differentiate_Add, Sl, Sr. simpl. rewrite Dl, Dr. simpl.
    eexists; split; [reflexivity |]. simpl. now rewrite Ql, Qr.
  - apply andb_prop in H as [Hl Hr].
    destruct (simplify_sums_and_products l Hl) as (l' & Sl & Pl).
    destruct (simplify_sums_and_products r Hr) as (r' & Sr & Pr).
    pose proof (simplify_size _ _ Sl). pose proof (simplify_size _ _ Sr).
    destruct (IH l') as (dl & Dl & Ql); [lia | assumption |].
    destruct (IH r') as (dr & Dr & Qr); [lia | assumption |].
    rewrite differentiate_Multiply, Sl, Sr. simpl. rewrite Dl, Dr. simpl.
    eexists; split; [reflexivity |]. simpl. now rewrite Ql, Qr, Pl, Pr.
Qed.

(** On such trees the simplified derivative always exists, and it is
    [Constant(0)] when the variable does not occur. *)
Lemma simplified_derivative_sums_and_products (e : Expression) (var : string) :
  sums_and_products e = true ->
  exists r, simplified_derivative e var = Ret r
            /\ (occurs var e = false -> r = Constant (Int 0)).
Proof.
  intros H.
  destruct (differentiate_sums_and_products var (size e) e (le_n _) H)
    as (d & Hd & Pd).
  destruct (simplify_sums_and_products d Pd) as (r & Hr & _).
  exists r. unfold simplified_derivative. rewrite Hd. simpl.
  split; [exact Hr |]. intros O.
  eapply (derivative_without_variable var (size e)); eauto.
Qed.

(** * Properties *)

(** C1 (amended).  For [f] = 3x^2 + 2x + 1, simplifying the derivative
    with respect to x returns
    [Add(Multiply(Constant(3), Multiply(Constant(2), Variable("x"))), Constant(2))],
    rendered [((3 * (2 * x)) + 2)]: the product 3 * (2 * x) is not
    folded into 6 * x. *)
Theorem derivative_of_polynomial_example :
  simplified_derivative f "x"
  = Ret (Add (Multiply (Constant (Int 3)) (Multiply (Constant (Int 2)) x))
             (Constant (Int 2)))
  /\ Py.map __str__ (simplified_derivative f "x") = Ret "((3 * (2 * x)) + 2)".
Proof.
  rewrite simplified_derivative_f. split; reflexivity.
Qed.

(** C1 as stated fails: the simplified derivative of [f] is neither
    structurally nor textually [Add(Multiply(Constant(6), Variable("x")), Constant(2))]. *)
Lemma polynomial_example_is_not_6x_plus_2 :
  simplified_derivative f "x"
  <> Ret (Add (Multiply (Constant (Int 6)) x) (Constant (Int 2)))
  /\ Py.map __str__ (simplified_derivative f "x")
     <> Ret (__str__ (Add (Multiply (Constant (Int 6)) x) (Constant (Int 2)))).
Proof.
  rewrite simplified_derivative_f. split; intros H; discriminate H.
Qed.

(** C2 as stated fails: [None] is not a number, yet coercing it and
    combining it with [x] build expression trees. *)
Lemma construction_accepts_None :
  numeric NoneValue = false
  /\ to_expression (Object NoneValue) = Constant NoneValue
  /\ __add__ x (Object NoneValue) = Add x (Constant NoneValue)
  /\ __sub__ x (Object NoneValue)
     = Add x (Multiply (Constant (Int (-1))) (Constant NoneValue))
  /\ __mul__ x (Object NoneValue) = Multiply x (Constant NoneValue)
  /\ __pow__ x (Object NoneValue) = Power x (Constant NoneValue).
Proof. repeat split. Qed.

(** A constant that is not a number fails only later, when [simplify]
    folds it with another constant. *)
Example None_fails_when_folded :
  simplify (__add__ (Constant (Int 1)) (Object NoneValue)) = Raise TypeError.
Proof. reflexivity. Qed.

(** The exponent [x] contributes nothing to the derivative of [x^x]. *)
Example differentiate_x_to_the_x :
  differentiate (Power x x) "x"
  = Ret (Multiply (Multiply x (Power x (Add x (Constant (Int (-1))))))
                  (Constant (Int 1))).
Proof. vm_compute. reflexivity. Qed.


(** C6 as stated fails at [b = Power(Constant(0), Constant(-1))]: the
    base is simplified before the exponent is looked at, and folding
    [0 ** -1] raises [ZeroDivisionError]. *)
Lemma simplify_Power_zero_exponent_raises :
  simplify (Power (Power (Constant (Int 0)) (Constant (Int (-1))))
                  (Constant (Int 0)))
  = Raise ZeroDivisionError
  /\ simplify (Power (Power (Constant (Int 0)) (Constant (Int (-1))))
                     (Constant (Int 0)))
     <> Ret (Constant (Int 1)).
Proof. split; [reflexivity | discriminate]. Qed.

(** C7.  With [x = Variable("x")]: [x + 0] and [x * 1] simplify to
    [x], and [x * 0] simplifies to [Constant(0)]. *)
Theorem identity_elimination :
  simplify (Add x (Constant (Int 0))) = Ret x
  /\ simplify (Multiply x (Constant (Int 1))) = Ret x
  /\ simplify (Multiply x (Constant (Int 0))) = Ret (Constant (Int 0)).
Proof. repeat split. Qed.

(** C8.  Subtraction builds
    [Add(to_expression(a), Multiply(Constant(-1), to_expression(b)))],
    whichever side the [Expression] is on; there is no node for
    subtraction. *)
Theorem subtraction_is_Add_of_negation (self : Expression) (other : operand) :
  __sub__ self other
  = Add (to_expression (Instance self))
        (Multiply (Constant (Int (-1))) (to_expression other))
  /\ __rsub__ self other
     = Add (to_expression other)
           (Multiply (Constant (Int (-1))) (to_expression (Instance self)))
  /\ subtract (Instance self) other
     = Some (Add (to_expression (Instance self))
                 (Multiply (Constant (Int (-1))) (to_expression other)))
  /\ subtract other (Instance self)
     = Some (Add (to_expression other)
                 (Multiply (Constant (Int (-1)))
                           (to_expression (Instance self)))).
Proof. destruct other; repeat split. Qed.

(** C9 as stated fails at [e = Power(Constant(0), Constant(0))], in
    which no variable occurs: simplifying its derivative folds
    [0 ** -1] and raises [ZeroDivisionError]. *)
Lemma derivative_without_variable_raises :
  occurs "x" (Power (Constant (Int 0)) (Constant (Int 0))) = false
  /\ simplified_derivative (Power (Constant (Int 0)) (Constant (Int 0))) "x"
     = Raise ZeroDivisionError.
Proof. split; vm_compute; reflexivity. Qed.

(** * Further properties *)

(** ** Fixed points of [simplify] *)

(** X3.  The trees that [simplify] returns unchanged are exactly the
    trees in reduced form. *)
Theorem simplify_fixed_iff_reduced (e : Expression) :
  simplify e = Ret e <-> reduced e = true.
Proof.
  split.
  - apply simplify_reduced.
  - apply reduced_simplify.
Qed.

(** ** [differentiate] as one step of simplification and the plain rules *)

Lemma differentiate_reduced_rules (e : Expression) (var : string) :
  reduced e = true ->
  differentiate e var = Ret (rules_without_simplify e var).
Proof.
  induction e as [v | n | l IHl r IHr | l IHl r IHr | b IHb y IHy];
    intros H.
  - now rewrite differentiate_Constant.
  - now rewrite differentiate_Var.
  - destruct (reduced_children _ l r (or_introl eq_refl) H) as [Hl Hr].
    now rewrite differentiate_Add_reduced, (IHl Hl), (IHr Hr).
  - destruct (reduced_children _ l r (or_intror (or_introl eq_refl)) H)
      as [Hl Hr].
    now rewrite differentiate_Multiply_reduced, (IHl Hl), (IHr Hr).
  - destruct (reduced_children _ b y (or_intror (or_intror eq_refl)) H)
      as [Hb Hy].
    now rewrite differentiate_Power_reduced, (IHb Hb).
Qed.

Lemma differentiate_by_rules (e : Expression) (var : string) :
  differentiate e var
  = (e' <- simplify_children e ;; Ret (rules_without_simplify e' var)).
Proof.
  destruct e as [v | n | l r | l r | b y]; simpl.
  - now rewrite differentiate_Constant.
  - now rewrite differentiate_Var.
  - rewrite differentiate_Add.
    destruct (simplify l) as [l' | |] eqn:Hl; simpl; try reflexivity.
    destruct (simplify r) as [r' | |] eqn:Hr; simpl; try reflexivity.
    now rewrite !differentiate_reduced_rules by eauto using simplify_reduced.
  - rewrite differentiate_Multiply.
    destruct (simplify l) as [l' | |] eqn:Hl; simpl; try reflexivity.
    destruct (simplify r) as [r' | |] eqn:Hr; simpl; try reflexivity.
    now rewrite !differentiate_reduced_rules by eauto using simplify_reduced.
  - rewrite differentiate_Power.
    destruct (simplify b) as [b' | |] eqn:Hb; simpl; try reflexivity.
    destruct (simplify y) as [y' | |] eqn:Hy; simpl; try reflexivity.
    now rewrite !differentiate_reduced_rules by eauto using simplify_reduced.
Qed.

(** ** Values of trees *)

Lemma add_Ret_inv (v w u : Py.value) :
  Py.add v w = Ret u -> exists a b, v = Int a /\ w = Int b /\ u = Int (a + b).
Proof.
  destruct v as [a |], w as [b |]; simpl; intros H; try discriminate.
  injection H as <-. eauto.
Qed.

Lemma mul_Ret_inv (v w u : Py.value) :
  Py.mul v w = Ret u -> exists a b, v = Int a /\ w = Int b /\ u = Int (a * b).
Proof.
  destruct v as [a |], w as [b |]; simpl; intros H; try discriminate.
  injection H as <-. eauto.
Qed.

Lemma pow_Ret_inv (v w u : Py.value) :
  Py.pow v w = Ret u ->
  exists a b, v = Int a /\ w = Int b /\ (0 <= b)%Z /\ u = Int (a ^ b).
Proof.
  destruct v as [a |], w as [b |]; simpl; intros H; try discriminate.
  destruct (0 <=? b)%Z eqn:E; [| destruct (a =? 0)%Z; discriminate].
  injection H as <-. apply Z.leb_le in E. exists a, b. auto.
Qed.

Ltac eval_inv :=
  repeat match goal with
    | H : evaluate _ (Add _ _) = Ret _ |- _ => cbn [evaluate] in H
    | H : evaluate _ (Multiply _ _) = Ret _ |- _ => cbn [evaluate] in H
    | H : evaluate _ (Power _ _) = Ret _ |- _ => cbn [evaluate] in H
    | H : evaluate _ (Constant _) = Ret _ |- _ => cbn [evaluate] in H
    | H : Py.bind _ _ = Ret _ |- _ =>
        let a := fresh "v" in
        let E := fresh "E" in
        apply bind_Ret_inv in H as (a & E & H)
    | H : Py.add _ _ = Ret _ |- _ =>
        apply add_Ret_inv in H as (? & ? & ? & ? & ?)
    | H : Py.mul _ _ = Ret _ |- _ =>
        apply mul_Ret_inv in H as (? & ? & ? & ? & ?)
    | H : Py.pow _ _ = Ret _ |- _ =>
        apply pow_Ret_inv in H as (? & ? & ? & ? & ? & ?)
    | H : Ret _ = Ret _ |- _ => injection H as H
    | H : Int _ = Int _ |- _ => injection H as H
    | H : ?a = ?b |- _ => first [is_var a | is_var b]; subst
    end.

Lemma same_value_Add env l l' r r' :
  same_value env l l' -> same_value env r r' ->
  same_value env (Add l r) (Add l' r').
Proof.
  intros Hl Hr z H. simpl in *.
  apply bind_Ret_inv in H as (a & Ea & H).
  apply bind_Ret_inv in H as (b & Eb & H).
  now rewrite (Hl _ Ea), (Hr _ Eb).
Qed.

Lemma same_value_Multiply env l l' r r' :
  same_value env l l' -> same_value env r r' ->
  same_value env (Multiply l r) (Multiply l' r').
Proof.
  intros Hl Hr z H. simpl in *.
  apply bind_Ret_inv in H as (a & Ea & H).
  apply bind_Ret_inv in H as (b & Eb & H).
  now rewrite (Hl _ Ea), (Hr _ Eb).
Qed.

Lemma same_value_Power env l l' r r' :
  same_value env l l' -> same_value env r r' ->
  same_value env (Power l r) (Power l' r').
Proof.
  intros Hl Hr z H. simpl in *.
  apply bind_Ret_inv in H as (a & Ea & H).
  apply bind_Ret_inv in H as (b & Eb & H).
  now rewrite (Hl _ Ea), (Hr _ Eb).
Qed.

Lemma same_value_refl env e : same_value env e e.
Proof. now intros z. Qed.

Lemma same_value_trans env e1 e2 e3 :
  same_value env e1 e2 -> same_value env e2 e3 -> same_value env e1 e3.
Proof. intros H1 H2 z H. auto. Qed.

Lemma Add_rules_value env l' r' e' :
  Add_rules l' r' = Ret e' -> same_value env (Add l' r') e'.
Proof.
  unfold Add_rules. intros H z Hz.
  destruct (is_constant l' 0) eqn:El.
  { apply is_constant_true in El. subst. injection H as <-.
    eval_inv. assumption. }
  destruct (is_constant r' 0) eqn:Er.
  { apply is_constant_true in Er. subst. injection H as <-.
    eval_inv. now rewrite Z.add_0_r. }
  destruct l' as [va | | | |]; try (now injection H as <-).
  destruct r' as [vb | | | |]; try (now injection H as <-).
  apply bind_Ret_inv in H as (w & Hw & H). injection H as <-.
  cbn [evaluate Py.bind] in *. congruence.
Qed.

Lemma Multiply_rules_value env l' r' e' :
  Multiply_rules l' r' = Ret e' -> same_value env (Multiply l' r') e'.
Proof.
  unfold Multiply_rules. intros H z Hz.
  destruct (is_constant l' 0) eqn:El.
  { apply is_constant_true in El. subst. injection H as <-.
    eval_inv. reflexivity. }
  destruct (is_constant r' 0) eqn:Er.
  { apply is_constant_true in Er. subst. injection H as <-.
    eval_inv. now rewrite Z.mul_0_r. }
  destruct (is_constant l' 1) eqn:El1.
  { apply is_constant_true in El1. subst. injection H as <-.
    eval_inv. now rewrite Z.mul_1_l. }
  destruct (is_constant r' 1) eqn:Er1.
  { apply is_constant_true in Er1. subst. injection H as <-.
    eval_inv. now rewrite Z.mul_1_r. }
  destruct l' as [va | | | |]; try (now injection H as <-).
  destruct r' as [vb | | | |]; try (now injection H as <-).
  apply bind_Ret_inv in H as (w & Hw & H). injection H as <-.
  cbn [evaluate Py.bind] in *. congruence.
Qed.

Lemma Power_rules_value env b' y' e' :
  Power_rules b' y' = Ret e' -> same_value env (Power b' y') e'.
Proof.
  unfold Power_rules. intros H z Hz.
  destruct (is_constant y' 0) eqn:E0.
  { apply is_constant_true in E0. subst. injection H as <-.
    eval_inv. reflexivity. }
  destruct (is_constant y' 1) eqn:E1.
  { apply is_constant_true in E1. subst. injection H as <-.
    eval_inv. now rewrite Z.pow_1_r. }
  destruct b' as [va | | | |]; try (now injection H as <-).
  destruct y' as [vb | | | |]; try (now injection H as <-).
  apply bind_Ret_inv in H as (w & Hw & H). injection H as <-.
  cbn [evaluate Py.bind] in *. congruence.
Qed.

Lemma simplify_value env (e : Expression) :
  forall e', simplify e = Ret e' -> same_value env e e'.
Proof.
  induction e as [v | n | l IHl r IHr | l IHl r IHr | b IHb y IHy];
    intros e' H.
  - injection H as <-. apply same_value_refl.
  - injection H as <-. apply same_value_refl.
  - apply simplify_Add_inv in H as (l' & r' & Hl & Hr & H).
    eapply same_value_trans;
      [apply same_value_Add; eauto | now apply Add_rules_value].
  - apply simplify_Multiply_inv in H as (l' & r' & Hl & Hr & H).
    eapply same_value_trans;
      [apply same_value_Multiply; eauto | now apply Multiply_rules_value].
  - apply simplify_Power_inv in H as (b' & y' & Hb & Hy & H).
    eapply same_value_trans;
      [apply same_value_Power; eauto | now apply Power_rules_value].
Qed.

Ltac value_done :=
  cbn [rules_without_simplify] in *; eval_inv; cbn [evaluate];
  first
    [ assumption
    | exfalso; lia
    | match goal with
      | H : evaluate ?env ?e = Ret (Int ?a) |- evaluate ?env ?e = Ret (Int ?b) =>
          rewrite H; do 2 f_equal; first [lia | ring]
      | |- Ret (Int _) = Ret (Int _) => do 2 f_equal; first [lia | ring]
      end ].

Lemma Add_rules_rules_value env var l' r' e' :
  Add_rules l' r' = Ret e' ->
  same_value env (rules_without_simplify (Add l' r') var)
                 (rules_without_simplify e' var).
Proof.
  unfold Add_rules. intros H z Hz.
  destruct (is_constant l' 0) eqn:El.
  { apply is_constant_true in El. subst. injection H as <-. value_done. }
  destruct (is_constant r' 0) eqn:Er.
  { apply is_constant_true in Er. subst. injection H as <-. value_done. }
  destruct l' as [va | | | |]; try (now injection H as <-).
  destruct r' as [vb | | | |]; try (now injection H as <-).
  apply bind_Ret_inv in H as (w & Hw & H). injection H as <-. value_done.
Qed.

Lemma Multiply_rules_rules_value env var l' r' e' :
  Multiply_rules l' r' = Ret e' ->
  same_value env (rules_without_simplify (Multiply l' r') var)
                 (rules_without_simplify e' var).
Proof.
  unfold Multiply_rules. intros H z Hz.
  destruct (is_constant l' 0) eqn:El.
  { apply is_constant_true in El. subst. injection H as <-. value_done. }
  destruct (is_constant r' 0) eqn:Er.
  { apply is_constant_true in Er. subst. injection H as <-. value_done. }
  destruct (is_constant l' 1) eqn:El1.
  { apply is_constant_true in El1. subst. injection H as <-. value_done. }
  destruct (is_constant r' 1) eqn:Er1.
  { apply is_constant_true in Er1. subst. injection H as <-. value_done. }
  destruct l' as [va | | | |]; try (now injection H as <-).
  destruct r' as [vb | | | |]; try (now injection H as <-).
  apply bind_Ret_inv in H as (w & Hw & H). injection H as <-. value_done.
Qed.

Lemma Power_rules_rules_value env var b' y' e' :
  Power_rules b' y' = Ret e' ->
  same_value env (rules_without_simplify (Power b' y') var)
                 (rules_without_simplify e' var).
Proof.
  unfold Power_rules. intros H z Hz.
  destruct (is_constant y' 0) eqn:E0.
  { apply is_constant_true in E0. subst. injection H as <-. value_done. }
  destruct (is_constant y' 1) eqn:E1.
  { apply is_constant_true in E1. subst. injection H as <-. value_done. }
  destruct b' as [va | | | |]; try (now injection H as <-).
  destruct y' as [vb | | | |]; try (now injection H as <-).
  apply bind_Ret_inv in H as (w & Hw & H). injection H as <-. value_done.
Qed.

Lemma simplify_rules_value env var (e : Expression) :
  forall e', simplify e = Ret e' ->
             same_value env (rules_without_simplify e var)
                            (rules_without_simplify e' var).
Proof.
  induction e as [v | n | l IHl r IHr | l IHl r IHr | b IHb y IHy];
    intros e' H.
  - injection H as <-. apply same_value_refl.
  - injection H as <-. apply same_value_refl.
  - apply simplify_Add_inv in H as (l' & r' & Hl & Hr & H).
    eapply same_value_trans; [| eapply Add_rules_rules_value; eauto].
    cbn [rules_without_simplify]. apply same_value_Add; auto.
  - apply simplify_Multiply_inv in H as (l' & r' & Hl & Hr & H).
    eapply same_value_trans; [| eapply Multiply_rules_rules_value; eauto].
    cbn [rules_without_simplify].
    apply same_value_Add; apply same_value_Multiply;
      auto using simplify_value.
  - apply simplify_Power_inv in H as (b' & y' & Hb & Hy & H).
    eapply same_value_trans; [| eapply Power_rules_rules_value; eauto].
    cbn [rules_without_simplify].
    apply same_value_Multiply; [| auto].
    apply same_value_Multiply; [auto using simplify_value |].
    apply same_value_Power; [auto using simplify_value |].
    apply same_value_Add; [auto using simplify_value | apply same_value_refl].
Qed.

Lemma children_rules_value env var (e e' : Expression) :
  simplify_children e = Ret e' ->
  same_value env (rules_without_simplify e var)
                 (rules_without_simplify e' var).
Proof.
  destruct e as [v | n | l r | l r | b y]; simpl; intros H.
  - injection H as <-. apply same_value_refl.
  - injection H as <-. apply same_value_refl.
  - apply bind_Ret_inv in H as (l' & Hl & H).
    apply bind_Ret_inv in H as (r' & Hr & H). injection H as <-.
    cbn [rules_without_simplify].
    apply same_value_Add; auto using simplify_rules_value.
  - apply bind_Ret_inv in H as (l' & Hl & H).
    apply bind_Ret_inv in H as (r' & Hr & H). injection H as <-.
    cbn [rules_without_simplify].
    apply same_value_Add; apply same_value_Multiply;
      auto using simplify_value, simplify_rules_value.
  - apply bind_Ret_inv in H as (b' & Hb & H).
    apply bind_Ret_inv in H as (y' & Hy & H). injection H as <-.
    cbn [rules_without_simplify].
    apply same_value_Multiply; [| auto using simplify_rules_value].
    apply same_value_Multiply; [auto using simplify_value |].
    apply same_value_Power; [auto using simplify_value |].
    apply same_value_Add; [auto using simplify_value | apply same_value_refl].
Qed.

Lemma Add_rules_ints (a b : Z) :
  Add_rules (Constant (Int a)) (Constant (Int b)) = Ret (Constant (Int (a + b))).
Proof.
  unfold Add_rules. simpl.
  destruct (Z.eqb_spec a 0) as [-> |]; [reflexivity |].
  destruct (Z.eqb_spec b 0) as [-> |]; [now rewrite Z.add_0_r | reflexivity].
Qed.

Lemma Multiply_rules_ints (a b : Z) :
  Multiply_rules (Constant (Int a)) (Constant (Int b))
  = Ret (Constant (Int (a * b))).
Proof.
  unfold Multiply_rules. simpl.
  destruct (Z.eqb_spec a 0) as [-> |]; [reflexivity |].
  destruct (Z.eqb_spec b 0) as [-> |]; [now rewrite Z.mul_0_r |].
  destruct (Z.eqb_spec a 1) as [-> |]; [now rewrite Z.mul_1_l |].
  destruct (Z.eqb_spec b 1) as [-> |]; [now rewrite Z.mul_1_r | reflexivity].
Qed.

Lemma Power_rules_ints (a b : Z) :
  (0 <= b)%Z ->
  Power_rules (Constant (Int a)) (Constant (Int b))
  = Ret (Constant (Int (a ^ b))).
Proof.
  intros Hb. unfold Power_rules. simpl.
  destruct (Z.eqb_spec b 0) as [-> |]; [reflexivity |].
  destruct (Z.eqb_spec b 1) as [-> |]; [now rewrite Z.pow_1_r |].
  destruct (Z.leb_spec 0 b); [reflexivity | lia].
Qed.

Lemma variable_free_folds (env : string -> Py.value) (e : Expression) :
  variable_free e = true ->
  forall z, evaluate env e = Ret (Int z) ->
            simplify e = Ret (Constant (Int z)).
Proof.
  induction e as [v | n | l IHl r IHr | l IHl r IHr | b IHb y IHy];
    simpl variable_free; intros V z H; try discriminate.
  - simpl in H. now injection H as ->.
  - apply andb_prop in V as [Vl Vr]. eval_inv.
    rewrite simplify_Add.
    erewrite IHl, IHr by eauto. cbn [Py.bind]. apply Add_rules_ints.
  - apply andb_prop in V as [Vl Vr]. eval_inv.
    rewrite simplify_Multiply.
    erewrite IHl, IHr by eauto. cbn [Py.bind]. apply Multiply_rules_ints.
  - apply andb_prop in V as [Vb Vy]. eval_inv.
    rewrite simplify_Power.
    erewrite IHb, IHy by eauto. cbn [Py.bind]. now apply Power_rules_ints.
Qed.

(** X11.  Constant folding is complete on trees without variables: if
    such a tree has an integer value, [simplify] returns the single
    [Constant] holding that value, whichever rule fires at each node. *)
Theorem simplify_folds_variable_free
        (env : string -> Py.value) (e : Expression) (z : Z) :
  variable_free e = true ->
  evaluate env e = Ret (Int z) ->
  simplify e = Ret (Constant (Int z)).
Proof. intros V H. eapply variable_free_folds; eauto. Qed.

Lemma simplify_folds_variable_free_witness :
  (variable_free
     (Add (Power (Constant (Int 2)) (Constant (Int 10)))
          (Multiply (Constant (Int (-3))) (Constant (Int 8)))) = true
   /\ evaluate (fun _ => NoneValue)
        (Add (Power (Constant (Int 2)) (Constant (Int 10)))
             (Multiply (Constant (Int (-3))) (Constant (Int 8))))
      = Ret (Int 1000))
  /\ simplify (Add (Power (Constant (Int 2)) (Constant (Int 10)))
                   (Multiply (Constant (Int (-3))) (Constant (Int 8))))
     = Ret (Constant (Int 1000)).
Proof.
  split; [split; reflexivity |].
  apply (simplify_folds_variable_free (fun _ => NoneValue)); reflexivity.
Defined.

(** ** Trees that have a value can be simplified and differentiated *)

Lemma Add_rules_return env (l' r' : Expression) (a b : Z) :
  evaluate env l' = Ret (Int a) -> evaluate env r' = Ret (Int b) ->
  exists e', Add_rules l' r' = Ret e'.
Proof.
  intros Hl Hr. unfold Add_rules.
  destruct (is_constant l' 0); [eauto |].
  destruct (is_constant r' 0); [eauto |].
  destruct l' as [va | | | |]; eauto.
  destruct r' as [vb | | | |]; eauto.
  simpl in Hl, Hr. injection Hl as ->. injection Hr as ->. simpl. eauto.
Qed.

Lemma Multiply_rules_return env (l' r' : Expression) (a b : Z) :
  evaluate env l' = Ret (Int a) -> evaluate env r' = Ret (Int b) ->
  exists e', Multiply_rules l' r' = Ret e'.
Proof.
  intros Hl Hr. unfold Multiply_rules.
  destruct (is_constant l' 0); [eauto |].
  destruct (is_constant r' 0); [eauto |].
  destruct (is_constant l' 1); [eauto |].
  destruct (is_constant r' 1); [eauto |].
  destruct l' as [va | | | |]; eauto.
  destruct r' as [vb | | | |]; eauto.
  simpl in Hl, Hr. injection Hl as ->. injection Hr as ->. simpl. eauto.
Qed.

Lemma Power_rules_return env (b' y' : Expression) (a b : Z) :
  evaluate env b' = Ret (Int a) -> evaluate env y' = Ret (Int b) ->
  (0 <= b)%Z ->
  exists e', Power_rules b' y' = Ret e'.
Proof.
  intros Hb Hy Pos. unfold Power_rules.
  destruct (is_constant y' 0); [eauto |].
  destruct (is_constant y' 1); [eauto |].
  destruct b' as [va | | | |]; eauto.
  destruct y' as [vb | | | |]; eauto.
  simpl in Hb, Hy. injection Hb as ->. injection Hy as ->. simpl.
  apply Z.leb_le in Pos. rewrite Pos. simpl. eauto.
Qed.

(** A tree that has a value is simplified without failure, into a tree
    with that value. *)
Lemma value_simplify env (e : Expression) :
  forall v, evaluate env e = Ret v ->
            exists e', simplify e = Ret e' /\ evaluate env e' = Ret v.
Proof.
  induction e as [c | n | l IHl r IHr | l IHl r IHr | b IHb y IHy];
    intros v E.
  - exists (Constant c). auto.
  - exists (Var n). auto.
  - eval_inv.
    match goal with
    | Hl : evaluate env l = Ret _, Hr : evaluate env r = Ret _ |- _ =>
        destruct (IHl _ Hl) as (l' & Sl & Vl);
        destruct (IHr _ Hr) as (r' & Sr & Vr);
        destruct (Add_rules_return env l' r' _ _ Vl Vr) as (e' & R);
        exists e';
        assert (S : simplify (Add l r) = Ret e')
          by (rewrite simplify_Add, Sl, Sr; exact R);
        split; [exact S |];
        apply (simplify_value env _ _ S);
        cbn [evaluate]; now rewrite Hl, Hr
    end.
  - eval_inv.
    match goal with
    | Hl : evaluate env l = Ret _, Hr : evaluate env r = Ret _ |- _ =>
        destruct (IHl _ Hl) as (l' & Sl & Vl);
        destruct (IHr _ Hr) as (r' & Sr & Vr);
        destruct (Multiply_rules_return env l' r' _ _ Vl Vr) as (e' & R);
        exists e';
        assert (S : simplify (Multiply l r) = Ret e')
          by (rewrite simplify_Multiply, Sl, Sr; exact R);
        split; [exact S |];
        apply (simplify_value env _ _ S);
        cbn [evaluate]; now rewrite Hl, Hr
    end.
  - eval_inv.
    match goal with
    | Hb : evaluate env b = Ret _, Hy : evaluate env y = Ret (Int ?k),
      Pos : (0 <= ?k)%Z |- _ =>
        destruct (IHb _ Hb) as (b' & Sb & Vb);
        destruct (IHy _ Hy) as (y' & Sy & Vy);
        destruct (Power_rules_return env b' y' _ _ Vb Vy Pos) as (e' & R);
        exists e';
        assert (S : simplify (Power b y) = Ret e')
          by (rewrite simplify_Power, Sb, Sy; exact R);
        split; [exact S |];
        apply (simplify_value env _ _ S);
        cbn [evaluate]; rewrite Hb, Hy; cbn [Py.bind]; simpl;
        apply Z.leb_le in Pos; now rewrite Pos
    end.
Qed.

(** X9.  [simplify] keeps the value of a tree.  Under every assignment
    of integers to the variables, if evaluating the tree returns a value
    without leaving the integers (every [**] has a non-negative
    exponent), then [simplify] returns, and the tree it returns
    evaluates to the same value. *)
Theorem simplify_preserves_value
        (env : string -> Z) (e : Expression) (v : Py.value) :
  evaluate (fun name => Int (env name)) e = Ret v ->
  exists e', simplify e = Ret e'
             /\ evaluate (fun name => Int (env name)) e' = Ret v.
Proof. apply value_simplify. Qed.

Lemma simplify_preserves_value_witness :
  evaluate (fun name => Int ((fun _ => 4%Z) name))
    (Add (Multiply (Constant (Int 2)) (Constant (Int 3)))
         (Power x (Constant (Int 1))))
  = Ret (Int 10)
  /\ exists e',
      simplify (Add (Multiply (Constant (Int 2)) (Constant (Int 3)))
                    (Power x (Constant (Int 1))))
      = Ret e'
      /\ evaluate (fun name => Int ((fun _ => 4%Z) name)) e' = Ret (Int 10).
Proof.
  split; [reflexivity |].
  apply (simplify_preserves_value (fun _ => 4%Z)). reflexivity.
Defined.

Lemma simplify_integer_constants (e : Expression) :
  forall e', simplify e = Ret e' ->
             integer_constants e = true -> integer_constants e' = true.
Proof.
  induction e as [c | n | l IHl r IHr | l IHl r IHr | b IHb y IHy];
    intros e' E I.
  - now injection E as <-.
  - now injection E as <-.
  - simpl in I. apply andb_prop in I as [Il Ir].
    apply simplify_Add_inv in E as (l' & r' & Hl & Hr & E).
    specialize (IHl _ Hl Il). specialize (IHr _ Hr Ir).
    unfold Add_rules in E; rules_cases E;
      try (injection E as <-; simpl in *; rewrite ?IHl, ?IHr; reflexivity).
    apply bind_Ret_inv in E as (w & Hw & E). injection E as <-.
    apply add_Ret_inv in Hw as (? & ? & _ & _ & ->). reflexivity.
  - simpl in I. apply andb_prop in I as [Il Ir].
    apply simplify_Multiply_inv in E as (l' & r' & Hl & Hr & E).
    specialize (IHl _ Hl Il). specialize (IHr _ Hr Ir).
    unfold Multiply_rules in E; rules_cases E;
      try (injection E as <-; simpl in *; rewrite ?IHl, ?IHr; reflexivity).
    apply bind_Ret_inv in E as (w & Hw & E). injection E as <-.
    apply mul_Ret_inv in Hw as (? & ? & _ & _ & ->). reflexivity.
  - simpl in I. apply andb_prop in I as [Ib Iy].
    apply simplify_Power_inv in E as (b' & y' & Hb & Hy & E).
    specialize (IHb _ Hb Ib). specialize (IHy _ Hy Iy).
    unfold Power_rules in E; rules_cases E;
      try (injection E as <-; simpl in *; rewrite ?IHb, ?IHy; reflexivity).
    apply bind_Ret_inv in E as (w & Hw & E). injection E as <-.
    apply pow_Ret_inv in Hw as (? & ? & _ & _ & _ & ->). reflexivity.
Qed.

Lemma Add_rules_return_integers (l' r' : Expression) :
  integer_constants l' = true -> integer_constants r' = true ->
  exists e', Add_rules l' r' = Ret e'.
Proof.
  intros Il Ir. unfold Add_rules.
  destruct (is_constant l' 0); [eauto |].
  destruct (is_constant r' 0); [eauto |].
  destruct l' as [[a |] | | | |]; try discriminate; eauto.
  destruct r' as [[b |] | | | |]; try discriminate; simpl; eauto.
Qed.

Lemma Multiply_rules_return_integers (l' r' : Expression) :
  integer_constants l' = true -> integer_constants r' = true ->
  exists e', Multiply_rules l' r' = Ret e'.
Proof.
  intros Il Ir. unfold Multiply_rules.
  destruct (is_constant l' 0); [eauto |].
  destruct (is_constant r' 0); [eauto |].
  destruct (is_constant l' 1); [eauto |].
  destruct (is_constant r' 1); [eauto |].
  destruct l' as [[a |] | | | |]; try discriminate; eauto.
  destruct r' as [[b |] | | | |]; try discriminate; simpl; eauto.
Qed.

(** If the plain rules applied to a tree of integer constants give a
    tree with a value, the tree itself is simplified without failure. *)
Lemma rules_value_simplify env var (e : Expression) :
  integer_constants e = true ->
  forall z, evaluate env (rules_without_simplify e var) = Ret z ->
            exists e', simplify e = Ret e'.
Proof.
  induction e as [c | n | l IHl r IHr | l IHl r IHr | b IHb y IHy];
    intros I z E; simpl in I.
  - now exists (Constant c).
  - now exists (Var n).
  - apply andb_prop in I as [Il Ir].
    cbn [rules_without_simplify] in E. eval_inv.
    match goal with
    | Hl : evaluate env (rules_without_simplify l var) = Ret _,
      Hr : evaluate env (rules_without_simplify r var) = Ret _ |- _ =>
        destruct (IHl Il _ Hl) as (l' & Sl);
        destruct (IHr Ir _ Hr) as (r' & Sr)
    end.
    destruct (Add_rules_return_integers l' r') as (e' & R);
      eauto using simplify_integer_constants.
    exists e'. now rewrite simplify_Add, Sl, Sr.
  - apply andb_prop in I as [Il Ir].
    cbn [rules_without_simplify] in E. eval_inv.
    match goal with
    | Hl : evaluate env (rules_without_simplify l var) = Ret _,
      Hr : evaluate env (rules_without_simplify r var) = Ret _ |- _ =>
        destruct (IHl Il _ Hl) as (l' & Sl);
        destruct (IHr Ir _ Hr) as (r' & Sr)
    end.
    destruct (Multiply_rules_return_integers l' r') as (e' & R);
      eauto using simplify_integer_constants.
    exists e'. now rewrite simplify_Multiply, Sl, Sr.
  - apply andb_prop in I as [Ib Iy].
    cbn [rules_without_simplify] in E. eval_inv.
    match goal with
    | Hb : evaluate env b = Ret (Int ?vb),
      Hy : evaluate env y = Ret (Int ?vy),
      Pos : (0 <= ?vy + -1)%Z |- _ =>
        destruct (value_simplify env b _ Hb) as (b' & Sb & Vb);
        destruct (value_simplify env y _ Hy) as (y' & Sy & Vy);
        destruct (Power_rules_return env b' y' vb vy Vb Vy ltac:(lia))
          as (e' & R);
        exists e'; now rewrite simplify_Power, Sb, Sy
    end.
Qed.

Lemma rules_value_children env var (e : Expression) :
  integer_constants e = true ->
  forall z, evaluate env (rules_without_simplify e var) = Ret z ->
            exists e', simplify_children e = Ret e'.
Proof.
  destruct e as [c | n | l r | l r | b y]; intros I z E; simpl in I;
    try (simpl; eauto; fail);
    apply andb_prop in I as [I1 I2];
    cbn [rules_without_simplify] in E; eval_inv.
  - match goal with
    | Hl : evaluate env (rules_without_simplify l var) = Ret _,
      Hr : evaluate env (rules_without_simplify r var) = Ret _ |- _ =>
        destruct (rules_value_simplify env var l I1 _ Hl) as (l' & Sl);
        destruct (rules_value_simplify env var r I2 _ Hr) as (r' & Sr)
    end.
    simpl. rewrite Sl, Sr. simpl. eauto.
  - match goal with
    | Hl : evaluate env (rules_without_simplify l var) = Ret _,
      Hr : evaluate env (rules_without_simplify r var) = Ret _ |- _ =>
        destruct (rules_value_simplify env var l I1 _ Hl) as (l' & Sl);
        destruct (rules_value_simplify env var r I2 _ Hr) as (r' & Sr)
    end.
    simpl. rewrite Sl, Sr. simpl. eauto.
  - match goal with
    | Hb : evaluate env b = Ret (Int _),
      Hy : evaluate env y = Ret (Int _) |- _ =>
        destruct (value_simplify env b _ Hb) as (b' & Sb & _);
        destruct (value_simplify env y _ Hy) as (y' & Sy & _)
    end.
    simpl. rewrite Sb, Sy. simpl. eauto.
Qed.

(** X10.  Simplifying on the way does not change the value of a
    derivative.  For a tree of integer constants and every assignment of
    integers to the variables: if the sum, product and power rules
    applied to the tree as it stands give a tree whose evaluation
    returns a value without leaving the integers, then [differentiate]
    returns, and the tree it returns evaluates to the same value. *)
Theorem differentiate_has_value_of_rules
        (env : string -> Z) (e : Expression) (var : string) (z : Py.value) :
  integer_constants e = true ->
  evaluate (fun name => Int (env name)) (rules_without_simplify e var)
  = Ret z ->
  exists d, differentiate e var = Ret d
            /\ evaluate (fun name => Int (env name)) d = Ret z.
Proof.
  intros I E.
  destruct (rules_value_children _ var e I z E) as (e' & He).
  exists (rules_without_simplify e' var). split.
  - now rewrite differentiate_by_rules, He.
  - eapply children_rules_value; eauto.
Qed.

Lemma differentiate_has_value_of_rules_witness :
  (integer_constants f = true
   /\ evaluate (fun name => Int ((fun _ => 5%Z) name))
        (rules_without_simplify f "x")
      = Ret (Int 32))
  /\ exists d, differentiate f "x" = Ret d
               /\ evaluate (fun name => Int ((fun _ => 5%Z) name)) d
                  = Ret (Int 32).
Proof.
  split; [split; vm_compute; reflexivity |].
  apply (differentiate_has_value_of_rules (fun _ => 5%Z) f "x");
    vm_compute; reflexivity.
Defined.

(** ** Where nothing can fail *)

(** X12.  On trees built from integer constants, variables, sums and
    products, neither [simplify] nor [differentiate] nor the
    simplification of the derivative fails, and each returns a tree of
    the same kind. *)
Theorem sums_and_products_never_fail (e : Expression) (var : string) :
  sums_and_products e = true ->
  (exists e', simplify e = Ret e' /\ sums_and_products e' = true)
  /\ (exists d, differentiate e var = Ret d /\ sums_and_products d = true)
  /\ (exists r, simplified_derivative e var = Ret r
                /\ sums_and_products r = true).
Proof.
  intros H. split; [now apply simplify_sums_and_products |].
  destruct (differentiate_sums_and_products var (size e) e (le_n _) H)
    as (d & Hd & Pd).
  split; [eauto |].
  destruct (simplify_sums_and_products d Pd) as (r & Hr & Pr).
  exists r. unfold simplified_derivative. rewrite Hd. auto.
Qed.

Lemma sums_and_products_never_fail_witness :
  sums_and_products (Multiply (Add x (Constant (Int 1))) (Add x (Var "y")))
  = true
  /\ ((exists e',
         simplify (Multiply (Add x (Constant (Int 1))) (Add x (Var "y")))
         = Ret e' /\ sums_and_products e' = true)
      /\ (exists d,
            differentiate
              (Multiply (Add x (Constant (Int 1))) (Add x (Var "y"))) "x"
            = Ret d /\ sums_and_products d = true)
      /\ (exists r,
            simplified_derivative
              (Multiply (Add x (Constant (Int 1))) (Add x (Var "y"))) "x"
            = Ret r /\ sums_and_products r = true)).
Proof.
  split; [reflexivity |].
  apply (sums_and_products_never_fail
           (Multiply (Add x (Constant (Int 1))) (Add x (Var "y"))) "x").
  reflexivity.
Defined.

(** ** [__repr__] *)

Lemma repr_starts_with_class (e1 e2 : Expression) :
  __repr__ e1 = __repr__ e2 -> class_name e1 = class_name e2.
Proof.
  unfold __repr__.
  destruct e1, e2; simpl; intros H; try reflexivity; discriminate H.
Qed.

(** X14.  [__repr__] tells the class of a node, which [__str__] alone
    does not: two nodes with the same [__repr__] have the same class,
    while a [Constant] and the [Variable] named by its text have the
    same [__str__] and different [__repr__]. *)
Theorem repr_tells_class :
  (forall e1 e2 : Expression,
      __repr__ e1 = __repr__ e2 -> class_name e1 = class_name e2)
  /\ (forall v : Py.value,
         __str__ (Constant v) = __str__ (Var (Py.str v))
         /\ __repr__ (Constant v) <> __repr__ (Var (Py.str v))).
Proof.
  split; [apply repr_starts_with_class |].
  intros v. split; [reflexivity |].
  intros H. apply repr_starts_with_class in H. discriminate H.
Qed.

(** ** Reading a rendering back *)

Lemma append_assoc' (s1 s2 s3 : string) : (s1 ++ s2) ++ s3 = s1 ++ (s2 ++ s3).
Proof. induction s1 as [| c s1 IH]; simpl; [reflexivity | now rewrite IH]. Qed.

Lemma append_empty (s : string) : s ++ "" = s.
Proof. induction s as [| c s IH]; simpl; [reflexivity | now rewrite IH]. Qed.

Lemma atom_split (s1 : string) :
  forall s2 t1 t2,
    free_of_delimiters s1 = true -> free_of_delimiters s2 = true ->
    boundary t1 = true -> boundary t2 = true ->
    s1 ++ t1 = s2 ++ t2 -> s1 = s2 /\ t1 = t2.
Proof.
  induction s1 as [| a s1 IH]; intros [| b s2] t1 t2 F1 F2 B1 B2 H;
    simpl in *.
  - auto.
  - subst t1. simpl in B1. apply andb_prop in F2 as [F2 _].
    rewrite B1 in F2. discriminate.
  - subst t2. simpl in B2. apply andb_prop in F1 as [F1 _].
    rewrite B2 in F1. discriminate.
  - injection H as -> H.
    apply andb_prop in F1 as [_ F1]. apply andb_prop in F2 as [_ F2].
    destruct (IH s2 t1 t2 F1 F2 B1 B2 H) as [-> ->]. auto.
Qed.

Lemma uint_text (d : Decimal.uint) :
  free_of_delimiters (NilEmpty.string_of_uint d) = true
  /\ (d <> Decimal.Nil ->
      exists c s, NilEmpty.string_of_uint d = String c s
                  /\ digit_or_minus c = true).
Proof.
  induction d as [| d [IH _] | d [IH _] | d [IH _] | d [IH _] | d [IH _]
                 | d [IH _] | d [IH _] | d [IH _] | d [IH _] | d [IH _]];
    simpl; (split; [try rewrite IH; reflexivity |]); intros N;
    try congruence; eauto.
Qed.

Lemma str_Int_text (z : Z) :
  free_of_delimiters (Py.str (Int z)) = true
  /\ exists c s, Py.str (Int z) = String c s /\ digit_or_minus c = true.
Proof.
  destruct z as [| p | p]; simpl.
  - split; [reflexivity | eauto].
  - pose proof (DecimalPos.Unsigned.to_uint_nonnil p) as N.
    destruct (uint_text (Pos.to_uint p)) as [F H].
    unfold NilZero.string_of_uint.
    destruct (Pos.to_uint p) eqn:E; try congruence; rewrite <- E in *; auto.
  - pose proof (DecimalPos.Unsigned.to_uint_nonnil p) as N.
    destruct (uint_text (Pos.to_uint p)) as [F H].
    unfold NilZero.string_of_uint.
    destruct (Pos.to_uint p) eqn:E; try congruence; rewrite <- E in *;
      (split; [simpl; exact F | eauto]).
Qed.

Lemma to_int_proper (z : Z) :
  Z.to_int z <> Decimal.Pos Decimal.Nil /\ Z.to_int z <> Decimal.Neg Decimal.Nil.
Proof.
  destruct z as [| p | p]; simpl; split; intros H; try discriminate;
    injection H as H; now apply DecimalPos.Unsigned.to_uint_nonnil in H.
Qed.

Lemma str_injective (v w : Py.value) : Py.str v = Py.str w -> v = w.
Proof.
  assert (P : forall z, NilZero.int_of_string (Py.str (Int z))
                        = Some (Z.to_int z)).
  { intros z. simpl. apply NilZero.isi; apply to_int_proper. }
  destruct v as [a |], w as [b |]; intros H; try reflexivity.
  - pose proof (P a) as Pa. rewrite H, P in Pa. injection Pa as Pa.
    apply (f_equal Z.of_int) in Pa. rewrite !DecimalZ.of_to in Pa.
    now subst.
  - pose proof (P a) as Pa. rewrite H in Pa. discriminate Pa.
  - pose proof (P b) as Pb. rewrite <- H in Pb. discriminate Pb.
Qed.

Lemma str_text (v : Py.value) :
  free_of_delimiters (Py.str v) = true
  /\ boundary (Py.str v) = false
  /\ proper_name (Py.str v) = false.
Proof.
  destruct v as [z |]; [| repeat split].
  destruct (str_Int_text z) as (F & c & s & E & D).
  split; [exact F |]. rewrite E in *. simpl in F |- *.
  apply andb_prop in F as [F _]. apply negb_true_iff in F.
  split; [exact F |]. now rewrite D.
Qed.

Lemma proper_name_text (n : string) :
  proper_name n = true ->
  free_of_delimiters n = true /\ boundary n = false.
Proof.
  destruct n as [| c n]; simpl; [discriminate |]. intros H.
  apply andb_prop in H as [_ H]. split; [exact H |].
  apply andb_prop in H as [H _]. now apply negb_true_iff in H.
Qed.

Lemma str_binary_app (op : string) (l r : Expression) (t : string) :
  ("(" ++ __str__ l ++ op ++ __str__ r ++ ")") ++ t
  = String "(" (__str__ l ++ (op ++ (__str__ r ++ String ")" t))).
Proof.
  simpl. f_equal. now rewrite !append_assoc'.
Qed.

Lemma boundary_head (s t : string) :
  boundary s = false -> boundary (s ++ t) = false.
Proof. destruct s; simpl; [discriminate | auto]. Qed.

Lemma leaf_text (e : Expression) :
  proper_names e = true -> is_leaf e = true ->
  free_of_delimiters (__str__ e) = true /\ boundary (__str__ e) = false.
Proof.
  destruct e as [v | n | | |]; simpl; try discriminate; intros P _.
  - destruct (str_text v) as (F & B & _). auto.
  - now apply proper_name_text.
Qed.

Lemma binary_text (e : Expression) (t : string) :
  is_leaf e = false -> boundary (__str__ e ++ t) = true.
Proof. destruct e; simpl; try discriminate; reflexivity. Qed.

Lemma leaf_not_binary (e1 e2 : Expression) (t1 t2 : string) :
  __str__ e1 ++ t1 = __str__ e2 ++ t2 ->
  proper_names e1 = true -> is_leaf e1 = true -> is_leaf e2 = false ->
  False.
Proof.
  intros H P1 L1 L2.
  destruct (leaf_text e1 P1 L1) as [_ B].
  apply (boundary_head _ t1) in B.
  rewrite H, (binary_text e2 t2 L2) in B. discriminate.
Qed.

Lemma leaf_leaf (e1 e2 : Expression) :
  is_leaf e1 = true -> is_leaf e2 = true ->
  proper_names e1 = true -> proper_names e2 = true ->
  __str__ e1 = __str__ e2 -> e1 = e2.
Proof.
  destruct e1 as [v | n | | |], e2 as [w | m | | |]; simpl;
    try discriminate; intros _ _ P1 P2 H.
  - f_equal. now apply str_injective.
  - subst m. destruct (str_text v) as (_ & _ & N). congruence.
  - subst n. destruct (str_text w) as (_ & _ & N). congruence.
  - now subst.
Qed.

Lemma binary_unique (op1 op2 : string) (l1 r1 l2 r2 : Expression)
      (t1 t2 : string) :
  unique_from l1 -> unique_from r1 ->
  operator_text op1 -> operator_text op2 ->
  proper_names l1 = true -> proper_names r1 = true ->
  proper_names l2 = true -> proper_names r2 = true ->
  ("(" ++ __str__ l1 ++ op1 ++ __str__ r1 ++ ")") ++ t1
  = ("(" ++ __str__ l2 ++ op2 ++ __str__ r2 ++ ")") ++ t2 ->
  l1 = l2 /\ op1 = op2 /\ r1 = r2 /\ t1 = t2.
Proof.
  intros IHl IHr O1 O2 Pl1 Pr1 Pl2 Pr2 H.
  rewrite !str_binary_app in H. injection H as H.
  apply IHl in H; try assumption;
    [| destruct O1 as [-> | [-> | ->]]; reflexivity
     | destruct O2 as [-> | [-> | ->]]; reflexivity].
  destruct H as [-> H].
  assert (E : op1 = op2
              /\ __str__ r1 ++ String ")" t1 = __str__ r2 ++ String ")" t2).
  { destruct O1 as [-> | [-> | ->]], O2 as [-> | [-> | ->]];
      simpl in H; try discriminate H; injection H as H; auto. }
  destruct E as [-> E].
  apply IHr in E; try assumption; try reflexivity.
  destruct E as [-> E]. injection E as ->. auto.
Qed.

Lemma str_unique (e1 : Expression) : unique_from e1.
Proof.
  induction e1 as [v | n | l IHl r IHr | l IHl r IHr | l IHl r IHr];
    intros e2 t1 t2 P1 P2 B1 B2 H.
  1, 2:
    destruct (is_leaf e2) eqn:L2;
    [ destruct (leaf_text _ P1 eq_refl) as [F1 _];
      destruct (leaf_text _ P2 L2) as [F2 _];
      destruct (atom_split _ _ t1 t2 F1 F2 B1 B2 H) as [E ->];
      split; [now apply leaf_leaf | reflexivity]
    | exfalso; exact (leaf_not_binary _ _ _ _ H P1 eq_refl L2) ].
  all: destruct e2 as [w | m | l2 r2 | l2 r2 | l2 r2];
    try (exfalso; symmetry in H;
         exact (leaf_not_binary _ _ _ _ H P2 eq_refl eq_refl));
    simpl in P1, P2;
    apply andb_prop in P1 as [P1l P1r];
    apply andb_prop in P2 as [P2l P2r];
    cbn [__str__] in H;
    apply binary_unique in H; try assumption;
    try (right; left; reflexivity); try (left; reflexivity);
    try (right; right; reflexivity);
    destruct H as (-> & O & -> & ->); try discriminate O; auto.
Qed.

(** X15.  The rendering of trees whose constants are integers or [None]
    is unambiguous: two such trees whose variables have proper names
    (not empty, not starting with a digit or a minus sign, not [None],
    without parentheses, spaces or carets) and whose renderings are the
    same text are the same tree.  A constant that is a string or a float
    such as [inf] can render as a variable does; such constants are not
    values of this host. *)
Theorem rendering_is_unambiguous (e1 e2 : Expression) :
  proper_names e1 = true ->
  proper_names e2 = true ->
  __str__ e1 = __str__ e2 ->
  e1 = e2.
Proof.
  intros P1 P2 H.
  apply (str_unique e1 e2 "" "" P1 P2 eq_refl eq_refl).
  now rewrite !append_empty.
Qed.

Lemma rendering_is_unambiguous_witness :
  (proper_names (Add (Var "a") (Power (Var "b") (Constant (Int (-2))))) = true
   /\ proper_names (__add__ (Var "a")
                      (Instance (__pow__ (Var "b") (Object (Int (-2))))))
      = true
   /\ __str__ (Add (Var "a") (Power (Var "b") (Constant (Int (-2)))))
      = __str__ (__add__ (Var "a")
                   (Instance (__pow__ (Var "b") (Object (Int (-2)))))))
  /\ Add (Var "a") (Power (Var "b") (Constant (Int (-2))))
     = __add__ (Var "a") (Instance (__pow__ (Var "b") (Object (Int (-2))))).
Proof.
  split; [repeat split |].
  apply rendering_is_unambiguous; reflexivity.
Defined.

(** ** The power of a variable *)

(** X16.  Power rule on [v**n] for an integer literal [n],
    differentiated with respect to [v] and simplified: [Constant(0)]
    for [n = 0], [Constant(1)] for [n = 1], [2 * v] for [n = 2], and
    [n * v**(n-1)] otherwise, negative [n] included (nothing is folded
    because the base is not a constant). *)
Theorem power_rule_on_variable (v : string) (n : Z) :
  simplified_derivative (Power (Var v) (Constant (Int n))) v
  = Ret (if (n =? 0)%Z then Constant (Int 0)
         else if (n =? 1)%Z then Constant (Int 1)
         else if (n =? 2)%Z then Multiply (Constant (Int 2)) (Var v)
         else Multiply (Constant (Int n))
                       (Power (Var v) (Constant (Int (n - 1))))).
Proof.
  unfold simplified_derivative.
  rewrite differentiate_Power. cbn [simplify Py.bind].
  rewrite differentiate_Var, String.eqb_refl. cbn [Py.bind].
  rewrite !simplify_Multiply, simplify_Power, simplify_Add.
  cbn [simplify Py.bind]. rewrite Add_rules_ints. cbn [Py.bind].
  destruct (Z.eqb_spec n 0) as [-> | N0]; [reflexivity |].
  destruct (Z.eqb_spec n 1) as [-> | N1]; [reflexivity |].
  destruct (Z.eqb_spec n 2) as [-> | N2]; [reflexivity |].
  unfold Power_rules. cbn [is_constant Py.eq_int].
  destruct (Z.eqb_spec (n + -1) 0); [lia |].
  destruct (Z.eqb_spec (n + -1) 1); [lia |].
  cbn [Py.bind]. unfold Multiply_rules at 1. cbn [is_constant Py.eq_int].
  destruct (Z.eqb_spec n 0); [lia |]. destruct (Z.eqb_spec n 1); [lia |].
  cbn [Py.bind]. rewrite Multiply_rules_one_r.
  now replace (n + -1)%Z with (n - 1)%Z by lia.
Qed.

(** * Properties on any host *)

Module AnyHost.

Import Generic.

Ltac rule_cases E :=
  repeat match type of E with
         | context [if ?c then _ else _] =>
             let Q := fresh "Q" in destruct c eqn:Q
         end;
  try match type of E with
      | context [match ?a with Constant _ => _ | _ => _ end] =>
          destruct a; simpl in E;
          try match type of E with
              | context [match ?b with Constant _ => _ | _ => _ end] =>
                  destruct b; simpl in E
              end
      end.

Ltac andb_hyps :=
  repeat match goal with
         | E : _ && _ = true |- _ => apply andb_prop in E as [? ?]
         | E : negb _ = true |- _ => apply negb_true_iff in E
         end.

Section Facts.

Context (H : Host).

(** ** Defining equations of [differentiate] *)

Lemma any_differentiate_Constant (v : value H) (var : string) :
  differentiate H (Constant v) var = Ret (Constant (of_int H 0)).
Proof. now simp differentiate. Qed.

Lemma any_differentiate_Var (name var : string) :
  differentiate H (Var name) var
  = Ret (if String.eqb name var
         then Constant (of_int H 1) else Constant (of_int H 0)).
Proof. now simp differentiate. Qed.

Lemma any_differentiate_Add (l r : Expression (value H)) (var : string) :
  differentiate H (Add l r) var
  = (left' <- simplify H l ;; right' <- simplify H r ;;
     dl <- differentiate H left' var ;; dr <- differentiate H right' var ;;
     Ret (Add dl dr)).
Proof.
  rewrite differentiate_equation_3. unfold inspect.
  enough (G : forall (c : result (Expression (value H)))
                     (E : simplify H l = c),
             differentiate_unfold_clause_3 H l (exist _ c E) r var
             = (left' <- c ;; right' <- simplify H r ;;
                dl <- differentiate H left' var ;;
                dr <- differentiate H right' var ;; Ret (Add dl dr)))
    by apply G.
  intros [left' | err |] Hl; simpl; try reflexivity.
  enough (G : forall (c : result (Expression (value H)))
                     (E : simplify H r = c),
             differentiate_unfold_clause_3_clause_1 H l left' Hl r
               (exist _ c E) var
             = (right' <- c ;; dl <- differentiate H left' var ;;
                dr <- differentiate H right' var ;; Ret (Add dl dr)))
    by apply G.
  intros [right' | err |] Hr; reflexivity.
Qed.

Lemma any_differentiate_Multiply (l r : Expression (value H)) (var : string) :
  differentiate H (Multiply l r) var
  = (left' <- simplify H l ;; right' <- simplify H r ;;
     dl <- differentiate H left' var ;; dr <- differentiate H right' var ;;
     Ret (Add (Multiply dl right') (Multiply left' dr))).
Proof.
  rewrite differentiate_equation_4. unfold inspect.
  enough (G : forall (c : result (Expression (value H)))
                     (E : simplify H l = c),
             differentiate_unfold_clause_4 H l (exist _ c E) r var
             = (left' <- c ;; right' <- simplify H r ;;
                dl <- differentiate H left' var ;;
                dr <- differentiate H right' var ;;
                Ret (Add (Multiply dl right') (Multiply left' dr))))
    by apply G.
  intros [left' | err |] Hl; simpl; try reflexivity.
  enough (G : forall (c : result (Expression (value H)))
                     (E : simplify H r = c),
             differentiate_unfold_clause_4_clause_1 H l left' Hl r
               (exist _ c E) var
             = (right' <- c ;; dl <- differentiate H left' var ;;
                dr <- differentiate H right' var ;;
                Ret (Add (Multiply dl right') (Multiply left' dr))))
    by apply G.
  intros [right' | err |] Hr; reflexivity.
Qed.

Lemma any_differentiate_Power (b e : Expression (value H)) (var : string) :
  differentiate H (Power b e) var
  = (base' <- simplify H b ;; exponent' <- simplify H e ;;
     db <- differentiate H base' var ;;
     Ret (Multiply
            (Multiply exponent'
               (Power base' (Add exponent' (Constant (of_int H (-1))))))
            db)).
Proof.
  rewrite differentiate_equation_5. unfold inspect.
  enough (G : forall (c : result (Expression (value H)))
                     (E : simplify H b = c),
             differentiate_unfold_clause_5 H b (exist _ c E) e var
             = (base' <- c ;; exponent' <- simplify H e ;;
                db <- differentiate H base' var ;;
                Ret (Multiply
                       (Multiply exponent'
                          (Power base'
                             (Add exponent' (Constant (of_int H (-1))))))
                       db)))
    by apply G.
  intros [base' | err |] Hb; simpl; try reflexivity.
  enough (G : forall (c : result (Expression (value H)))
                     (E : simplify H e = c),
             differentiate_unfold_clause_5_clause_1 H b base' Hb e
               (exist _ c E) var
             = (exponent' <- c ;; db <- differentiate H base' var ;;
                Ret (Multiply
                       (Multiply exponent'
                          (Power base'
                             (Add exponent' (Constant (of_int H (-1))))))
                       db)))
    by apply G.
  intros [exponent' | err |] He; reflexivity.
Qed.

(** ** Reduced form *)

Lemma any_Add_rules_reduced (l' r' e' : Expression (value H)) :
  Add_rules H l' r' = Ret e' ->
  reduced H l' = true -> reduced H r' = true -> reduced H e' = true.
Proof.
  unfold Add_rules; intros E Hl Hr; rule_cases E;
    try (injection E as <-; simpl in *; auto;
         rewrite ?Hl, ?Hr, ?Q, ?Q0; reflexivity).
  apply bind_returns in E as (v & _ & E). injection E as <-. reflexivity.
Qed.

Lemma any_Multiply_rules_reduced (l' r' e' : Expression (value H)) :
  Multiply_rules H l' r' = Ret e' ->
  reduced H l' = true -> reduced H r' = true -> reduced H e' = true.
Proof.
  unfold Multiply_rules; intros E Hl Hr; rule_cases E;
    try (injection E as <-; simpl in *; auto;
         rewrite ?Hl, ?Hr, ?Q, ?Q0, ?Q1, ?Q2; reflexivity).
  apply bind_returns in E as (v & _ & E). injection E as <-. reflexivity.
Qed.

Lemma any_Power_rules_reduced (b' x' e' : Expression (value H)) :
  Power_rules H b' x' = Ret e' ->
  reduced H b' = true -> reduced H x' = true -> reduced H e' = true.
Proof.
  unfold Power_rules; intros E Hb Hx; rule_cases E;
    try (injection E as <-; simpl in *; auto;
         rewrite ?Hb, ?Hx, ?Q, ?Q0; reflexivity).
  apply bind_returns in E as (v & _ & E). injection E as <-. reflexivity.
Qed.

Lemma any_simplify_reduced (e e' : Expression (value H)) :
  simplify H e = Ret e' -> reduced H e' = true.
Proof.
  revert e'.
  induction e as [v | n | l IHl r IHr | l IHl r IHr | b IHb x IHx];
    intros e' E.
  - injection E as <-. reflexivity.
  - injection E as <-. reflexivity.
  - apply any_simplify_Add_inv in E as (l' & r' & Hl & Hr & E).
    eapply any_Add_rules_reduced; eauto.
  - apply any_simplify_Multiply_inv in E as (l' & r' & Hl & Hr & E).
    eapply any_Multiply_rules_reduced; eauto.
  - apply any_simplify_Power_inv in E as (b' & x' & Hb & Hx & E).
    eapply any_Power_rules_reduced; eauto.
Qed.

Lemma any_reduced_Add_rules (l r : Expression (value H)) :
  reduced H (Add l r) = true -> Add_rules H l r = Ret (Add l r).
Proof.
  simpl; intros E; andb_hyps. unfold Add_rules.
  repeat match goal with
         | Q : is_constant _ _ _ = false |- _ => rewrite Q; clear Q
         end.
  destruct l, r; simpl in *; try reflexivity; discriminate.
Qed.

Lemma any_reduced_Multiply_rules (l r : Expression (value H)) :
  reduced H (Multiply l r) = true ->
  Multiply_rules H l r = Ret (Multiply l r).
Proof.
  simpl; intros E; andb_hyps. unfold Multiply_rules.
  repeat match goal with
         | Q : is_constant _ _ _ = false |- _ => rewrite Q; clear Q
         end.
  destruct l, r; simpl in *; try reflexivity; discriminate.
Qed.

Lemma any_reduced_Power_rules (b e : Expression (value H)) :
  reduced H (Power b e) = true -> Power_rules H b e = Ret (Power b e).
Proof.
  simpl; intros E; andb_hyps. unfold Power_rules.
  repeat match goal with
         | Q : is_constant _ _ _ = false |- _ => rewrite Q; clear Q
         end.
  destruct b, e; simpl in *; try reflexivity; discriminate.
Qed.

Lemma any_reduced_children (e l r : Expression (value H)) :
  e = Add l r \/ e = Multiply l r \/ e = Power l r ->
  reduced H e = true -> reduced H l = true /\ reduced H r = true.
Proof.
  intros [-> | [-> | ->]]; simpl; intros E; andb_hyps; auto.
Qed.

Lemma any_reduced_simplify (e : Expression (value H)) :
  reduced H e = true -> simplify H e = Ret e.
Proof.
  induction e as [v | n | l IHl r IHr | l IHl r IHr | b IHb x IHx];
    intros E; try reflexivity.
  - destruct (any_reduced_children _ l r (or_introl eq_refl) E) as [Hl Hr].
    rewrite any_simplify_Add, (IHl Hl), (IHr Hr). simpl.
    now apply any_reduced_Add_rules.
  - destruct (any_reduced_children _ l r (or_intror (or_introl eq_refl)) E)
      as [Hl Hr].
    rewrite any_simplify_Multiply, (IHl Hl), (IHr Hr). simpl.
    now apply any_reduced_Multiply_rules.
  - destruct (any_reduced_children _ b x (or_intror (or_intror eq_refl)) E)
      as [Hb Hx].
    rewrite any_simplify_Power, (IHb Hb), (IHx Hx). simpl.
    now apply any_reduced_Power_rules.
Qed.

Lemma any_simplify_simplify (e e' : Expression (value H)) :
  simplify H e = Ret e' -> simplify H e' = Ret e'.
Proof.
  intros E. apply any_reduced_simplify. eapply any_simplify_reduced; eauto.
Qed.

(** ** [differentiate] is one step of simplification, then the rules *)

Lemma any_differentiate_reduced (e : Expression (value H)) (var : string) :
  reduced H e = true ->
  differentiate H e var = Ret (rules_without_simplify H e var).
Proof.
  induction e as [v | n | l IHl r IHr | l IHl r IHr | b IHb y IHy];
    intros E.
  - now rewrite any_differentiate_Constant.
  - now rewrite any_differentiate_Var.
  - destruct (any_reduced_children _ l r (or_introl eq_refl) E) as [Hl Hr].
    rewrite any_differentiate_Add, (any_reduced_simplify l Hl),
      (any_reduced_simplify r Hr). cbn [Py.bind].
    now rewrite (IHl Hl), (IHr Hr).
  - destruct (any_reduced_children _ l r (or_intror (or_introl eq_refl)) E)
      as [Hl Hr].
    rewrite any_differentiate_Multiply, (any_reduced_simplify l Hl),
      (any_reduced_simplify r Hr). cbn [Py.bind].
    now rewrite (IHl Hl), (IHr Hr).
  - destruct (any_reduced_children _ b y (or_intror (or_intror eq_refl)) E)
      as [Hb Hy].
    rewrite any_differentiate_Power, (any_reduced_simplify b Hb),
      (any_reduced_simplify y Hy). cbn [Py.bind].
    now rewrite (IHb Hb).
Qed.

Lemma any_differentiate_by_rules (e : Expression (value H)) (var : string) :
  differentiate H e var
  = (e' <- simplify_children H e ;; Ret (rules_without_simplify H e' var)).
Proof.
  destruct e as [v | n | l r | l r | b y]; simpl.
  - now rewrite any_differentiate_Constant.
  - now rewrite any_differentiate_Var.
  - rewrite any_differentiate_Add.
    destruct (simplify H l) as [l' | |] eqn:Hl; simpl; try reflexivity.
    destruct (simplify H r) as [r' | |] eqn:Hr; simpl; try reflexivity.
    now rewrite !any_differentiate_reduced by eauto using any_simplify_reduced.
  - rewrite any_differentiate_Multiply.
    destruct (simplify H l) as [l' | |] eqn:Hl; simpl; try reflexivity.
    destruct (simplify H r) as [r' | |] eqn:Hr; simpl; try reflexivity.
    now rewrite !any_differentiate_reduced by eauto using any_simplify_reduced.
  - rewrite any_differentiate_Power.
    destruct (simplify H b) as [b' | |] eqn:Hb; simpl; try reflexivity.
    destruct (simplify H y) as [y' | |] eqn:Hy; simpl; try reflexivity.
    now rewrite !any_differentiate_reduced by eauto using any_simplify_reduced.
Qed.

(** ** Size and variables *)

Lemma any_size_positive (e : Expression (value H)) : (1 <= size e)%nat.
Proof. destruct e; simpl; lia. Qed.

Lemma any_simplify_same_size (e : Expression (value H)) :
  forall e', simplify H e = Ret e' -> size e' = size e -> e' = e.
Proof.
  induction e as [v | n | l IHl r IHr | l IHl r IHr | b IHb y IHy];
    intros e' E Hsz.
  - now injection E as <-.
  - now injection E as <-.
  - apply any_simplify_Add_inv in E as (l' & r' & Hl & Hr & E).
    pose proof (any_simplify_size _ _ _ Hl).
    pose proof (any_simplify_size _ _ _ Hr).
    pose proof (any_size_positive l). pose proof (any_size_positive r).
    unfold Add_rules in E; rule_cases E;
      try (injection E as <-; simpl in *; try lia;
           rewrite (IHl _ Hl), (IHr _ Hr) by (simpl; lia); reflexivity).
    apply bind_returns in E as (w & _ & E). injection E as <-.
    simpl in Hsz; lia.
  - apply any_simplify_Multiply_inv in E as (l' & r' & Hl & Hr & E).
    pose proof (any_simplify_size _ _ _ Hl).
    pose proof (any_simplify_size _ _ _ Hr).
    pose proof (any_size_positive l). pose proof (any_size_positive r).
    unfold Multiply_rules in E; rule_cases E;
      try (injection E as <-; simpl in *; try lia;
           rewrite (IHl _ Hl), (IHr _ Hr) by (simpl; lia); reflexivity).
    apply bind_returns in E as (w & _ & E). injection E as <-.
    simpl in Hsz; lia.
  - apply any_simplify_Power_inv in E as (b' & y' & Hb & Hy & E).
    pose proof (any_simplify_size _ _ _ Hb).
    pose proof (any_simplify_size _ _ _ Hy).
    pose proof (any_size_positive b). pose proof (any_size_positive y).
    unfold Power_rules in E; rule_cases E;
      try (injection E as <-; simpl in *; try lia;
           rewrite (IHb _ Hb), (IHy _ Hy) by (simpl; lia); reflexivity).
    apply bind_returns in E as (w & _ & E). injection E as <-.
    simpl in Hsz; lia.
Qed.

Lemma any_Add_rules_occurs (v : string) (l' r' e' : Expression (value H)) :
  Add_rules H l' r' = Ret e' ->
  occurs v l' = false -> occurs v r' = false -> occurs v e' = false.
Proof.
  unfold Add_rules; intros E Hl Hr; rule_cases E;
    try (injection E as <-; simpl in *; rewrite ?Hl, ?Hr; reflexivity).
  apply bind_returns in E as (w & _ & E). injection E as <-. reflexivity.
Qed.

Lemma any_Multiply_rules_occurs (v : string)
      (l' r' e' : Expression (value H)) :
  Multiply_rules H l' r' = Ret e' ->
  occurs v l' = false -> occurs v r' = false -> occurs v e' = false.
Proof.
  unfold Multiply_rules; intros E Hl Hr; rule_cases E;
    try (injection E as <-; simpl in *; rewrite ?Hl, ?Hr; reflexivity).
  apply bind_returns in E as (w & _ & E). injection E as <-. reflexivity.
Qed.

Lemma any_Power_rules_occurs (v : string) (b' x' e' : Expression (value H)) :
  Power_rules H b' x' = Ret e' ->
  occurs v b' = false -> occurs v x' = false -> occurs v e' = false.
Proof.
  unfold Power_rules; intros E Hb Hx; rule_cases E;
    try (injection E as <-; simpl in *; rewrite ?Hb, ?Hx; reflexivity).
  apply bind_returns in E as (w & _ & E). injection E as <-. reflexivity.
Qed.

Lemma any_simplify_occurs (v : string) (e e' : Expression (value H)) :
  simplify H e = Ret e' -> occurs v e = false -> occurs v e' = false.
Proof.
  revert e'.
  induction e as [c | n | l IHl r IHr | l IHl r IHr | b IHb x IHx];
    intros e' E O.
  - now injection E as <-.
  - now injection E as <-.
  - simpl in O. apply orb_false_elim in O as [Ol Or].
    apply any_simplify_Add_inv in E as (l' & r' & Hl & Hr & E).
    eapply any_Add_rules_occurs; eauto.
  - simpl in O. apply orb_false_elim in O as [Ol Or].
    apply any_simplify_Multiply_inv in E as (l' & r' & Hl & Hr & E).
    eapply any_Multiply_rules_occurs; eauto.
  - simpl in O. apply orb_false_elim in O as [Ob Ox].
    apply any_simplify_Power_inv in E as (b' & x' & Hb & Hx & E).
    eapply any_Power_rules_occurs; eauto.
Qed.

Lemma any_rules_occurs (v var : string) (e : Expression (value H)) :
  occurs v e = false -> occurs v (rules_without_simplify H e var) = false.
Proof.
  induction e as [c | n | l IHl r IHr | l IHl r IHr | b IHb y IHy];
    simpl; intros O.
  - reflexivity.
  - now destruct (String.eqb n var).
  - apply orb_false_elim in O as [Ol Or]. now rewrite IHl, IHr.
  - apply orb_false_elim in O as [Ol Or]. now rewrite IHl, IHr, Ol, Or.
  - apply orb_false_elim in O as [Ob Oy]. now rewrite IHb, Ob, Oy.
Qed.

Lemma any_children_occurs (v : string) (e e' : Expression (value H)) :
  simplify_children H e = Ret e' -> occurs v e = false -> occurs v e' = false.
Proof.
  destruct e as [c | n | l r | l r | b y]; simpl; intros E O;
    try (now injection E as <-);
    apply orb_false_elim in O as [O1 O2];
    apply bind_returns in E as (l' & Hl & E);
    apply bind_returns in E as (r' & Hr & E); injection E as <-; simpl;
    now rewrite (any_simplify_occurs v _ _ Hl O1),
      (any_simplify_occurs v _ _ Hr O2).
Qed.

Lemma any_differentiate_occurs (v var : string)
      (e d : Expression (value H)) :
  differentiate H e var = Ret d -> occurs v e = false -> occurs v d = false.
Proof.
  rewrite any_differentiate_by_rules. intros E O.
  apply bind_returns in E as (e' & He & E). injection E as <-.
  apply any_rules_occurs. eapply any_children_occurs; eauto.
Qed.

(** ** Properties that hold whatever the host computes *)

(** C2 (amended).  No operand is ever rejected and there is no coercion
    error: [to_expression] returns an [Expression] operand unchanged and
    wraps every other object, whatever it is, in a [Constant]; and each
    of the seven operator methods, on every receiver and for every
    operand, returns the node of the receiver and the coerced operand,
    the receiver on the left for [__add__], [__sub__], [__mul__] and
    [__pow__] and on the right for [__radd__], [__rsub__] and
    [__rmul__]. *)
Theorem construction_never_fails
        (self : Expression (value H)) (other : operand (value H)) :
  (forall e : Expression (value H), to_expression H (Instance e) = e)
  /\ (forall v : value H, to_expression H (Object v) = Constant v)
  /\ __add__ H self other = Add self (to_expression H other)
  /\ __radd__ H self other = Add (to_expression H other) self
  /\ __sub__ H self other
     = Add self (Multiply (Constant (of_int H (-1))) (to_expression H other))
  /\ __rsub__ H self other
     = Add (to_expression H other) (Multiply (Constant (of_int H (-1))) self)
  /\ __mul__ H self other = Multiply self (to_expression H other)
  /\ __rmul__ H self other = Multiply (to_expression H other) self
  /\ __pow__ H self other = Power self (to_expression H other).
Proof. repeat split. Qed.

(** C3.  With [b'] and [e'] the simplified base and exponent,
    [differentiate(Power(base, exponent), var)] returns
    [Multiply(Multiply(e', Power(b', Add(e', Constant(-1)))), d)] where
    [d] is the derivative of [b'], which always exists; the exponent is
    never differentiated, whatever it contains. *)
Theorem differentiate_Power_base_term
        (base exponent b' e' : Expression (value H)) (var : string) :
  simplify H base = Ret b' ->
  simplify H exponent = Ret e' ->
  exists d,
    differentiate H b' var = Ret d
    /\ differentiate H (Power base exponent) var
       = Ret (Multiply
                (Multiply e' (Power b' (Add e' (Constant (of_int H (-1))))))
                d).
Proof.
  intros Hb He.
  exists (rules_without_simplify H b' var).
  assert (Hd : differentiate H b' var = Ret (rules_without_simplify H b' var))
    by (apply any_differentiate_reduced; eapply any_simplify_reduced; eauto).
  split; [exact Hd |].
  rewrite any_differentiate_Power, Hb, He. cbn [Py.bind].
  now rewrite Hd.
Qed.


(** C10.  Whatever [simplify] returns is in reduced form: no [Add] with
    a child that is a [Constant] equal to 0, no [Multiply] with a child
    that is a [Constant] equal to 0 or to 1, no [Power] whose exponent is
    a [Constant] equal to 0 or to 1, and no node with two [Constant]
    children. *)
Theorem simplify_returns_reduced (e e' : Expression (value H)) :
  simplify H e = Ret e' -> reduced H e' = true.
Proof. apply any_simplify_reduced. Qed.

(** X1.  [simplify] never returns a larger tree, and it returns a tree
    of the same size only when it returns its argument unchanged. *)
Theorem simplify_shrinks_or_keeps (e e' : Expression (value H)) :
  simplify H e = Ret e' ->
  (size e' <= size e)%nat /\ (size e' = size e -> e' = e).
Proof.
  intros E. split; [now apply (any_simplify_size H) |].
  now apply any_simplify_same_size.
Qed.

(** X2.  Neither [simplify] nor [differentiate] introduces a variable. *)
Theorem no_new_variable (v var : string) (e : Expression (value H)) :
  occurs v e = false ->
  (forall e', simplify H e = Ret e' -> occurs v e' = false)
  /\ (forall d, differentiate H e var = Ret d -> occurs v d = false).
Proof.
  intros O. split.
  - intros e' E. eapply any_simplify_occurs; eauto.
  - intros d E. eapply any_differentiate_occurs; eauto.
Qed.

(** X4.  [differentiate] is one step of simplification followed by the
    plain rules: it simplifies the two children of its argument, fails
    with the failure of the first child whose simplification fails, and
    otherwise returns the sum, product and power rules applied, with no
    further simplification, to the node with the simplified children.
    On a tree in reduced form it returns the plain rules applied to the
    tree itself. *)
Theorem differentiate_is_rules_after_children
        (e : Expression (value H)) (var : string) :
  differentiate H e var
  = (e' <- simplify_children H e ;; Ret (rules_without_simplify H e' var))
  /\ (reduced H e = true ->
      differentiate H e var = Ret (rules_without_simplify H e var)).
Proof.
  split.
  - apply any_differentiate_by_rules.
  - apply any_differentiate_reduced.
Qed.



(** ** Facts that use the integer literals of the host *)

Hypothesis laws : Lawful H.

Lemma is_constant_literal (a k : Z) :
  is_constant H (Constant (of_int H a)) k = Z.eqb a k.
Proof. simpl. apply (eq_of_int H laws). Qed.

Lemma any_Add_rules_zero_l (r : Expression (value H)) :
  Add_rules H (Constant (of_int H 0)) r = Ret r.
Proof. unfold Add_rules. now rewrite is_constant_literal. Qed.

Lemma any_Multiply_rules_zero_l (r : Expression (value H)) :
  Multiply_rules H (Constant (of_int H 0)) r = Ret (Constant (of_int H 0)).
Proof. unfold Multiply_rules. now rewrite is_constant_literal. Qed.

Lemma any_Multiply_rules_zero_r (l : Expression (value H)) :
  Multiply_rules H l (Constant (of_int H 0)) = Ret (Constant (of_int H 0)).
Proof.
  unfold Multiply_rules. rewrite is_constant_literal.
  now destruct (is_constant H l 0).
Qed.

Lemma any_derivative_without_variable (v : string) (n : nat) :
  forall e d r : Expression (value H),
    (size e <= n)%nat -> occurs v e = false ->
    differentiate H e v = Ret d -> simplify H d = Ret r ->
    r = Constant (of_int H 0).
Proof.
  induction n as [| n IH]; intros e d r Hn O Hd Hs.
  { pose proof (any_size_positive e). lia. }
  destruct e as [c | name | l r0 | l r0 | b x].
  - rewrite any_differentiate_Constant in Hd. injection Hd as <-.
    now injection Hs as <-.
  - rewrite any_differentiate_Var in Hd. simpl in O. rewrite O in Hd.
    injection Hd as <-. now injection Hs as <-.
  - simpl in O, Hn. apply orb_false_elim in O as [Ol Or].
    rewrite any_differentiate_Add in Hd.
    apply bind_returns in Hd as (l' & Hl & Hd).
    apply bind_returns in Hd as (r' & Hr & Hd).
    apply bind_returns in Hd as (dl & Dl & Hd).
    apply bind_returns in Hd as (dr & Dr & Hd).
    injection Hd as <-.
    apply any_simplify_Add_inv in Hs as (sl & sr & Sl & Sr & Hs).
    pose proof (any_simplify_size _ _ _ Hl).
    pose proof (any_simplify_size _ _ _ Hr).
    assert (sl = Constant (of_int H 0)) as ->
        by (eapply (IH l'); eauto using any_simplify_occurs; lia).
    assert (sr = Constant (of_int H 0)) as ->
        by (eapply (IH r'); eauto using any_simplify_occurs; lia).
    rewrite any_Add_rules_zero_l in Hs. now injection Hs as <-.
  - simpl in O, Hn. apply orb_false_elim in O as [Ol Or].
    rewrite any_differentiate_Multiply in Hd.
    apply bind_returns in Hd as (l' & Hl & Hd).
    apply bind_returns in Hd as (r' & Hr & Hd).
    apply bind_returns in Hd as (dl & Dl & Hd).
    apply bind_returns in Hd as (dr & Dr & Hd).
    injection Hd as <-.
    apply any_simplify_Add_inv in Hs as (s1 & s2 & S1 & S2 & Hs).
    apply any_simplify_Multiply_inv in S1 as (sl & r'' & Sl & _ & S1).
    apply any_simplify_Multiply_inv in S2 as (l'' & sr & _ & Sr & S2).
    pose proof (any_simplify_size _ _ _ Hl).
    pose proof (any_simplify_size _ _ _ Hr).
    assert (sl = Constant (of_int H 0)) as ->
        by (eapply (IH l'); eauto using any_simplify_occurs; lia).
    assert (sr = Constant (of_int H 0)) as ->
        by (eapply (IH r'); eauto using any_simplify_occurs; lia).
    rewrite any_Multiply_rules_zero_l in S1. injection S1 as <-.
    rewrite any_Multiply_rules_zero_r in S2. injection S2 as <-.
    rewrite any_Add_rules_zero_l in Hs. now injection Hs as <-.
  - simpl in O, Hn. apply orb_false_elim in O as [Ob Ox].
    rewrite any_differentiate_Power in Hd.
    apply bind_returns in Hd as (b' & Hb & Hd).
    apply bind_returns in Hd as (x' & Hx & Hd).
    apply bind_returns in Hd as (db & Db & Hd).
    injection Hd as <-.
    apply any_simplify_Multiply_inv in Hs as (s1 & sb & _ & Sb & Hs).
    pose proof (any_simplify_size _ _ _ Hb).
    assert (sb = Constant (of_int H 0)) as ->
        by (eapply (IH b'); eauto using any_simplify_occurs; lia).
    rewrite any_Multiply_rules_zero_r in Hs. now injection Hs as <-.
Qed.



(** ** Properties of hosts that compute on integers as Python does *)

(** Where [2 ** -1] returns an object, a float in Python, [simplify]
    goes on with it: the product of that power and 0 simplifies to
    [Constant(0)], and the power alone to the [Constant] of the
    object. *)
Example folding_goes_on_with_a_float (half : value H) :
  pow H (of_int H 2) (of_int H (-1)) = Ret half ->
  simplify H (Power (Constant (of_int H 2)) (Constant (of_int H (-1))))
  = Ret (Constant half)
  /\ simplify H
       (Multiply (Power (Constant (of_int H 2)) (Constant (of_int H (-1))))
                 (Constant (of_int H 0)))
     = Ret (Constant (of_int H 0)).
Proof.
  intros E.
  assert (P : simplify H (Power (Constant (of_int H 2))
                                (Constant (of_int H (-1))))
              = Ret (Constant half)).
  { rewrite any_simplify_Power. cbn [simplify Py.bind]. unfold Power_rules.
    rewrite !is_constant_literal. cbn. now rewrite E. }
  split; [exact P |].
  rewrite any_simplify_Multiply, P. cbn [simplify Py.bind].
  apply any_Multiply_rules_zero_r.
Qed.


(** Where [1 ** -1] returns an object equal to 1 and not to 0, the float
    1.0 in Python, the sum rule holds on the simplified operands only:
    for [a = Multiply(x, Power(Constant(1), Constant(-1)))], which
    simplifies to [x], and [b = Constant(7)], the derivative of the sum
    simplifies to the integer [Constant(1)], while the sum of the
    derivatives of [a] and [b] simplifies to the [Constant] of that
    object. *)
Example sum_rule_differs_by_a_float (one : value H) :
  pow H (of_int H 1) (of_int H (-1)) = Ret one ->
  eq_int H one 0 = false ->
  eq_int H one 1 = true ->
  let a := Multiply (Var "x")
                    (Power (Constant (of_int H 1)) (Constant (of_int H (-1))))
  in
  let b := Constant (of_int H 7) in
  simplify H a = Ret (Var "x")
  /\ simplified_derivative H (Add a b) "x" = Ret (Constant (of_int H 1))
  /\ sum_of_derivatives H a b "x" = Ret (Constant one).
Proof.
  intros P Z0 Z1 a b.
  assert (Sp : simplify H (Power (Constant (of_int H 1))
                                 (Constant (of_int H (-1))))
               = Ret (Constant one)).
  { rewrite any_simplify_Power. cbn [simplify Py.bind]. unfold Power_rules.
    rewrite !is_constant_literal. cbn. now rewrite P. }
  assert (Sa : simplify H a = Ret (Var "x")).
  { unfold a. rewrite any_simplify_Multiply, Sp. cbn [simplify Py.bind].
    unfold Multiply_rules. cbn [is_constant]. now rewrite Z0, Z1. }
  assert (Da : differentiate H a "x"
               = Ret (Add (Multiply (Constant (of_int H 1)) (Constant one))
                          (Multiply (Var "x") (Constant (of_int H 0))))).
  { unfold a. rewrite any_differentiate_by_rules. cbn [simplify_children].
    rewrite Sp.
    change (simplify H (Var "x"))
      with (Ret (Var "x" : Expression (value H))).
    cbn [Py.bind rules_without_simplify]. now rewrite String.eqb_refl. }
  assert (Db : differentiate H b "x" = Ret (Constant (of_int H 0)))
    by apply any_differentiate_Constant.
  assert (S1 : simplify H (Multiply (Constant (of_int H 1)) (Constant one))
               = Ret (Constant one)).
  { rewrite any_simplify_Multiply. cbn [simplify Py.bind].
    unfold Multiply_rules. cbn [is_constant].
    now rewrite !(eq_of_int H laws), Z0. }
  assert (S2 : simplify H (Multiply (Var "x") (Constant (of_int H 0)))
               = Ret (Constant (of_int H 0))).
  { rewrite any_simplify_Multiply. cbn [simplify Py.bind].
    apply any_Multiply_rules_zero_r. }
  assert (S3 : Add_rules H (Constant one) (Constant (of_int H 0))
               = Ret (Constant one)).
  { unfold Add_rules. cbn [is_constant].
    now rewrite Z0, (eq_of_int H laws). }
  split; [exact Sa |]. split.
  - unfold simplified_derivative.
    rewrite any_differentiate_by_rules. cbn [simplify_children].
    rewrite Sa. change (simplify H b) with (Ret b).
    cbn [Py.bind rules_without_simplify b].
    rewrite String.eqb_refl, any_simplify_Add. cbn [simplify Py.bind].
    unfold Add_rules. now rewrite !is_constant_literal.
  - unfold sum_of_derivatives. rewrite Da, Db. cbn [Py.bind].
    rewrite any_simplify_Add, any_simplify_Add, S1, S2. cbn [Py.bind].
    rewrite S3. cbn [simplify Py.bind]. exact S3.
Qed.

(** C5.  [simplify] is idempotent: whatever tree [simplify] returns,
    simplifying that tree returns it again; [Constant(5)] and
    [Add(Constant(2), Constant(3))] both simplify to [Constant(5)]. *)
Theorem simplify_idempotent :
  (forall e e' : Expression (value H),
      simplify H e = Ret e' -> simplify H e' = Ret e')
  /\ simplify H (Constant (of_int H 5)) = Ret (Constant (of_int H 5))
  /\ simplify H (Add (Constant (of_int H 2)) (Constant (of_int H 3)))
     = Ret (Constant (of_int H 5)).
Proof.
  split; [| split; [reflexivity |]].
  - intros e e' E. eapply any_simplify_simplify; eauto.
  - rewrite any_simplify_Add. cbn [simplify Py.bind]. unfold Add_rules.
    rewrite !is_constant_literal. cbn.
    now rewrite (add_of_int H laws).
Qed.

(** C6 (amended).  For every [b] whose simplification returns [b'],
    [simplify(Power(b, Constant(0)))] is [Constant(1)], the rule being
    tried before constant folding, so that 0^0 gives [Constant(1)];
    and [simplify(Power(b, Constant(1)))] is [b']. *)
Theorem simplify_Power_edge_cases (b b' : Expression (value H)) :
  simplify H b = Ret b' ->
  simplify H (Power b (Constant (of_int H 0))) = Ret (Constant (of_int H 1))
  /\ simplify H (Power (Constant (of_int H 0)) (Constant (of_int H 0)))
     = Ret (Constant (of_int H 1))
  /\ simplify H (Power b (Constant (of_int H 1))) = Ret b'.
Proof.
  intros E. rewrite !any_simplify_Power, E. cbn [simplify Py.bind].
  unfold Power_rules. rewrite !is_constant_literal. repeat split.
Qed.

(** C9 (amended).  If [Variable(v)] does not occur in [e] and both
    [differentiate(e, v)] and the simplification of its result return,
    the simplified derivative is [Constant(0)]. *)
Theorem derivative_without_variable_is_zero
        (e r : Expression (value H)) (v : string) :
  occurs v e = false ->
  simplified_derivative H e v = Ret r ->
  r = Constant (of_int H 0).
Proof.
  intros O E. unfold simplified_derivative in E.
  apply bind_returns in E as (d & Hd & Hs).
  eapply (any_derivative_without_variable v (size e)); eauto.
Qed.


End Facts.

(** ** Instances on the host of integers and [None] *)

Lemma integer_host_lawful : Lawful integer_host.
Proof.
  split; simpl; try reflexivity.
  intros a b Hb. apply Z.leb_le in Hb. now rewrite Hb.
Qed.

Definition x : Expression Py.value := Var "x".

Lemma differentiate_Power_base_term_witness :
  simplify integer_host x = Ret x
  /\ exists d,
      differentiate integer_host x "x" = Ret d
      /\ differentiate integer_host (Power x x) "x"
         = Ret (Multiply (Multiply x (Power x (Add x (Constant (Int (-1))))))
                         d).
Proof.
  split; [reflexivity |].
  apply (differentiate_Power_base_term integer_host x x x x "x");
    reflexivity.
Defined.


Lemma simplify_idempotent_witness :
  (forall e e' : Expression Py.value,
      simplify integer_host e = Ret e' -> simplify integer_host e' = Ret e')
  /\ simplify integer_host (Constant (Int 5)) = Ret (Constant (Int 5))
  /\ simplify integer_host (Add (Constant (Int 2)) (Constant (Int 3)))
     = Ret (Constant (Int 5)).
Proof.
  exact (simplify_idempotent integer_host integer_host_lawful).
Defined.

Lemma simplify_Power_edge_cases_witness :
  simplify integer_host (Multiply x (Constant (Int 1))) = Ret x
  /\ (simplify integer_host
        (Power (Multiply x (Constant (Int 1))) (Constant (Int 0)))
      = Ret (Constant (Int 1))
      /\ simplify integer_host (Power (Constant (Int 0)) (Constant (Int 0)))
         = Ret (Constant (Int 1))
      /\ simplify integer_host
           (Power (Multiply x (Constant (Int 1))) (Constant (Int 1)))
         = Ret x).
Proof.
  split; [reflexivity |].
  apply (simplify_Power_edge_cases integer_host integer_host_lawful
           (Multiply x (Constant (Int 1))) x).
  reflexivity.
Defined.

Lemma derivative_without_variable_is_zero_witness :
  occurs "x" (Multiply (Add (Var "y") (Constant (Int 2)))
                       (Power (Var "y") (Constant (Int 3)))) = false
  /\ exists r,
      simplified_derivative integer_host
        (Multiply (Add (Var "y") (Constant (Int 2)))
                  (Power (Var "y") (Constant (Int 3)))) "x" = Ret r
      /\ r = Constant (Int 0).
Proof.
  split; [reflexivity |].
  eexists. split; [vm_compute; reflexivity |].
  apply (derivative_without_variable_is_zero integer_host integer_host_lawful
           (Multiply (Add (Var "y") (Constant (Int 2)))
                     (Power (Var "y") (Constant (Int 3))))
           _ "x");
    vm_compute; reflexivity.
Defined.

Lemma simplify_returns_reduced_witness :
  simplify integer_host
    (Add (Multiply (Constant (Int 2)) (Constant (Int 3)))
         (Multiply (Power x (Add (Constant (Int 1)) (Constant (Int 1))))
                   (Constant (Int 1))))
  = Ret (Add (Constant (Int 6)) (Power x (Constant (Int 2))))
  /\ reduced integer_host (Add (Constant (Int 6)) (Power x (Constant (Int 2))))
     = true.
Proof.
  split; [reflexivity |].
  apply (simplify_returns_reduced integer_host
           (Add (Multiply (Constant (Int 2)) (Constant (Int 3)))
                (Multiply (Power x (Add (Constant (Int 1)) (Constant (Int 1))))
                          (Constant (Int 1))))).
  reflexivity.
Defined.

Lemma simplify_shrinks_or_keeps_witness :
  simplify integer_host (Add (Multiply x (Constant (Int 1))) (Var "y"))
  = Ret (Add x (Var "y"))
  /\ ((size (Add x (Var "y"))
       <= size (Add (Multiply x (Constant (Int 1))) (Var "y")))%nat
      /\ (size (Add x (Var "y"))
          = size (Add (Multiply x (Constant (Int 1))) (Var "y")) ->
          Add x (Var "y") = Add (Multiply x (Constant (Int 1))) (Var "y"))).
Proof.
  split; [reflexivity |].
  apply (simplify_shrinks_or_keeps integer_host
           (Add (Multiply x (Constant (Int 1))) (Var "y"))).
  reflexivity.
Defined.

Lemma no_new_variable_witness :
  occurs "y" (Multiply x (Power x (Constant (Int 2)))) = false
  /\ ((forall e',
          simplify integer_host (Multiply x (Power x (Constant (Int 2))))
          = Ret e' -> occurs "y" e' = false)
      /\ (forall d,
             differentiate integer_host
               (Multiply x (Power x (Constant (Int 2)))) "x" = Ret d ->
             occurs "y" d = false)).
Proof.
  split; [reflexivity |].
  apply (no_new_variable integer_host "y" "x"
           (Multiply x (Power x (Constant (Int 2))))).
  reflexivity.
Defined.

Lemma differentiate_is_rules_after_children_witness :
  reduced integer_host (Power x (Var "n")) = true
  /\ differentiate integer_host (Power x (Var "n")) "x"
     = Ret (rules_without_simplify integer_host (Power x (Var "n")) "x").
Proof.
  split; [reflexivity |].
  apply (proj2 (differentiate_is_rules_after_children integer_host
                  (Power x (Var "n")) "x")).
  reflexivity.
Defined.




End AnyHost.

(** * The integer host is exact where it returns

    What [simplify] and [differentiate] return on the executable host of
    integers, they return on every host that computes on integers as
    Python does, floats or no floats: the returned tree is the same tree
    of integer literals. *)

Module Exactness.

Section Simulation.

Context (H : Generic.Host).
Hypothesis laws : Generic.Lawful H.

Lemma embed_is_constant (e : Expression) g (k : Z) :
  embed H e = Some g -> Generic.is_constant H g k = is_constant e k.
Proof.
  destruct e as [[z |] | n | l r | l r | l r]; simpl; intros E;
    try discriminate;
    try (destruct (embed H l), (embed H r); try discriminate);
    injection E as <-; simpl; try reflexivity.
  apply (Generic.eq_of_int H laws).
Qed.

Lemma embed_Constant (v : Py.value) g :
  embed H (Constant v) = Some g ->
  exists z, v = Int z /\ g = Generic.Constant (Generic.of_int H z).
Proof.
  destruct v as [z |]; simpl; intros E; [| discriminate].
  injection E as <-. eauto.
Qed.

Lemma embed_Add_rules (l' r' e' : Expression) gl gr :
  embed H l' = Some gl -> embed H r' = Some gr ->
  Add_rules l' r' = Ret e' ->
  exists g', embed H e' = Some g' /\ Generic.Add_rules H gl gr = Ret g'.
Proof.
  intros El Er E. unfold Generic.Add_rules, Add_rules in *.
  rewrite (embed_is_constant l' gl 0 El), (embed_is_constant r' gr 0 Er).
  destruct (is_constant l' 0); [injection E as <-; eauto |].
  destruct (is_constant r' 0); [injection E as <-; eauto |].
  destruct l' as [a | | | |], r' as [b | | | |];
    try (injection E as <-;
         simpl in El, Er |- *;
         repeat match goal with
                | H0 : match embed H ?t with _ => _ end = Some _ |- _ =>
                    destruct (embed H t); try discriminate
                | H0 : match ?v with Int _ => _ | NoneValue => _ end = Some _
                  |- _ => destruct v; try discriminate
                end;
         injection El as <-; injection Er as <-; simpl; eauto; fail).
  apply embed_Constant in El as (za & -> & ->).
  apply embed_Constant in Er as (zb & -> & ->).
  simpl in E. injection E as <-.
  eexists. split; [reflexivity |].
  now rewrite (Generic.add_of_int H laws).
Qed.

Lemma embed_Multiply_rules (l' r' e' : Expression) gl gr :
  embed H l' = Some gl -> embed H r' = Some gr ->
  Multiply_rules l' r' = Ret e' ->
  exists g', embed H e' = Some g' /\ Generic.Multiply_rules H gl gr = Ret g'.
Proof.
  intros El Er E. unfold Generic.Multiply_rules, Multiply_rules in *.
  rewrite (embed_is_constant l' gl 0 El), (embed_is_constant r' gr 0 Er),
    (embed_is_constant l' gl 1 El), (embed_is_constant r' gr 1 Er).
  destruct (is_constant l' 0); [injection E as <-; simpl; eauto |].
  destruct (is_constant r' 0); [injection E as <-; simpl; eauto |].
  destruct (is_constant l' 1); [injection E as <-; eauto |].
  destruct (is_constant r' 1); [injection E as <-; eauto |].
  destruct l' as [a | | | |], r' as [b | | | |];
    try (injection E as <-;
         simpl in El, Er |- *;
         repeat match goal with
                | H0 : match embed H ?t with _ => _ end = Some _ |- _ =>
                    destruct (embed H t); try discriminate
                | H0 : match ?v with Int _ => _ | NoneValue => _ end = Some _
                  |- _ => destruct v; try discriminate
                end;
         injection El as <-; injection Er as <-; simpl; eauto; fail).
  apply embed_Constant in El as (za & -> & ->).
  apply embed_Constant in Er as (zb & -> & ->).
  simpl in E. injection E as <-.
  eexists. split; [reflexivity |].
  now rewrite (Generic.mul_of_int H laws).
Qed.

Lemma embed_Power_rules (l' r' e' : Expression) gl gr :
  embed H l' = Some gl -> embed H r' = Some gr ->
  Power_rules l' r' = Ret e' ->
  exists g', embed H e' = Some g' /\ Generic.Power_rules H gl gr = Ret g'.
Proof.
  intros El Er E. unfold Generic.Power_rules, Power_rules in *.
  rewrite (embed_is_constant r' gr 0 Er), (embed_is_constant r' gr 1 Er).
  destruct (is_constant r' 0); [injection E as <-; simpl; eauto |].
  destruct (is_constant r' 1); [injection E as <-; eauto |].
  destruct l' as [a | | | |], r' as [b | | | |];
    try (injection E as <-;
         simpl in El, Er |- *;
         repeat match goal with
                | H0 : match embed H ?t with _ => _ end = Some _ |- _ =>
                    destruct (embed H t); try discriminate
                | H0 : match ?v with Int _ => _ | NoneValue => _ end = Some _
                  |- _ => destruct v; try discriminate
                end;
         injection El as <-; injection Er as <-; simpl; eauto; fail).
  apply embed_Constant in El as (za & -> & ->).
  apply embed_Constant in Er as (zb & -> & ->).
  apply bind_Ret_inv in E as (w & Hw & E). injection E as <-.
  apply pow_Ret_inv in Hw as (a & b & Ea & Eb & Pos & ->).
  injection Ea as <-. injection Eb as <-.
  eexists. split; [reflexivity |]. simpl.
  now rewrite (Generic.pow_of_int H laws _ _ Pos).
Qed.

Lemma embed_simplify (e : Expression) :
  forall e' g, embed H e = Some g -> simplify e = Ret e' ->
               exists g', embed H e' = Some g' /\ Generic.simplify H g = Ret g'.
Proof.
  induction e as [c | n | l IHl r IHr | l IHl r IHr | l IHl r IHr];
    intros e' g G E.
  - injection E as <-. destruct c; [| discriminate].
    injection G as <-. eexists. split; reflexivity.
  - injection E as <-. injection G as <-. eexists. split; reflexivity.
  - simpl in G. destruct (embed H l) as [gl |] eqn:Gl; [| discriminate].
    destruct (embed H r) as [gr |] eqn:Gr; [| discriminate].
    injection G as <-.
    apply simplify_Add_inv in E as (l' & r' & Sl & Sr & E).
    destruct (IHl _ _ eq_refl Sl) as (gl' & Gl' & Tl).
    destruct (IHr _ _ eq_refl Sr) as (gr' & Gr' & Tr).
    destruct (embed_Add_rules _ _ _ _ _ Gl' Gr' E) as (g' & G' & T).
    exists g'. split; [exact G' |].
    rewrite Generic.any_simplify_Add, Tl, Tr. exact T.
  - simpl in G. destruct (embed H l) as [gl |] eqn:Gl; [| discriminate].
    destruct (embed H r) as [gr |] eqn:Gr; [| discriminate].
    injection G as <-.
    apply simplify_Multiply_inv in E as (l' & r' & Sl & Sr & E).
    destruct (IHl _ _ eq_refl Sl) as (gl' & Gl' & Tl).
    destruct (IHr _ _ eq_refl Sr) as (gr' & Gr' & Tr).
    destruct (embed_Multiply_rules _ _ _ _ _ Gl' Gr' E) as (g' & G' & T).
    exists g'. split; [exact G' |].
    rewrite Generic.any_simplify_Multiply, Tl, Tr. exact T.
  - simpl in G. destruct (embed H l) as [gl |] eqn:Gl; [| discriminate].
    destruct (embed H r) as [gr |] eqn:Gr; [| discriminate].
    injection G as <-.
    apply simplify_Power_inv in E as (l' & r' & Sl & Sr & E).
    destruct (IHl _ _ eq_refl Sl) as (gl' & Gl' & Tl).
    destruct (IHr _ _ eq_refl Sr) as (gr' & Gr' & Tr).
    destruct (embed_Power_rules _ _ _ _ _ Gl' Gr' E) as (g' & G' & T).
    exists g'. split; [exact G' |].
    rewrite Generic.any_simplify_Power, Tl, Tr. exact T.
Qed.

Lemma embed_rules (var : string) (e : Expression) :
  forall g, embed H e = Some g ->
            embed H (rules_without_simplify e var)
            = Some (Generic.rules_without_simplify H g var).
Proof.
  induction e as [c | n | l IHl r IHr | l IHl r IHr | l IHl r IHr];
    intros g G; simpl in G.
  - destruct c; [| discriminate]. now injection G as <-.
  - injection G as <-. simpl. now destruct (String.eqb n var).
  - destruct (embed H l) as [gl |] eqn:Gl; [| discriminate].
    destruct (embed H r) as [gr |] eqn:Gr; [| discriminate].
    injection G as <-. simpl.
    now rewrite (IHl _ eq_refl), (IHr _ eq_refl).
  - destruct (embed H l) as [gl |] eqn:Gl; [| discriminate].
    destruct (embed H r) as [gr |] eqn:Gr; [| discriminate].
    injection G as <-. simpl.
    now rewrite (IHl _ eq_refl), (IHr _ eq_refl), Gl, Gr.
  - destruct (embed H l) as [gl |] eqn:Gl; [| discriminate].
    destruct (embed H r) as [gr |] eqn:Gr; [| discriminate].
    injection G as <-. simpl.
    now rewrite (IHl _ eq_refl), Gl, Gr.
Qed.

Lemma embed_children (e e' : Expression) g :
  embed H e = Some g -> simplify_children e = Ret e' ->
  exists g', embed H e' = Some g'
             /\ Generic.simplify_children H g = Ret g'.
Proof.
  intros G E.
  destruct e as [c | n | l r | l r | l r]; simpl in G, E.
  - injection E as <-. exists g. split; [exact G |].
    destruct c; [| discriminate]. now injection G as <-.
  - injection E as <-. injection G as <-. eexists. split; reflexivity.
  - destruct (embed H l) as [gl |] eqn:Gl; [| discriminate].
    destruct (embed H r) as [gr |] eqn:Gr; [| discriminate].
    injection G as <-.
    apply bind_Ret_inv in E as (l' & Sl & E).
    apply bind_Ret_inv in E as (r' & Sr & E). injection E as <-.
    destruct (embed_simplify _ _ _ Gl Sl) as (gl' & Gl' & Tl).
    destruct (embed_simplify _ _ _ Gr Sr) as (gr' & Gr' & Tr).
    exists (Generic.Add gl' gr'). simpl. now rewrite Gl', Gr', Tl, Tr.
  - destruct (embed H l) as [gl |] eqn:Gl; [| discriminate].
    destruct (embed H r) as [gr |] eqn:Gr; [| discriminate].
    injection G as <-.
    apply bind_Ret_inv in E as (l' & Sl & E).
    apply bind_Ret_inv in E as (r' & Sr & E). injection E as <-.
    destruct (embed_simplify _ _ _ Gl Sl) as (gl' & Gl' & Tl).
    destruct (embed_simplify _ _ _ Gr Sr) as (gr' & Gr' & Tr).
    exists (Generic.Multiply gl' gr'). simpl. now rewrite Gl', Gr', Tl, Tr.
  - destruct (embed H l) as [gl |] eqn:Gl; [| discriminate].
    destruct (embed H r) as [gr |] eqn:Gr; [| discriminate].
    injection G as <-.
    apply bind_Ret_inv in E as (l' & Sl & E).
    apply bind_Ret_inv in E as (r' & Sr & E). injection E as <-.
    destruct (embed_simplify _ _ _ Gl Sl) as (gl' & Gl' & Tl).
    destruct (embed_simplify _ _ _ Gr Sr) as (gr' & Gr' & Tr).
    exists (Generic.Power gl' gr'). simpl. now rewrite Gl', Gr', Tl, Tr.
Qed.

(** X17.  The executable host is exact where it returns.  Let [e] be a
    tree of integer constants and [g] the same tree on a host that
    computes on integers as Python does.  If [simplify] returns [e'] for
    [e] on the executable host, it returns for [g] the same tree [e'] on
    that host; and likewise for [differentiate], whatever floats the
    host may have. *)
Theorem integer_host_is_exact (e : Expression) g :
  embed H e = Some g ->
  (forall e', simplify e = Ret e' ->
              exists g', embed H e' = Some g'
                         /\ Generic.simplify H g = Ret g')
  /\ (forall var d, differentiate e var = Ret d ->
                    exists g', embed H d = Some g'
                               /\ Generic.differentiate H g var = Ret g').
Proof.
  intros G. split.
  - intros e' E. eapply embed_simplify; eauto.
  - intros var d E. rewrite differentiate_by_rules in E.
    apply bind_Ret_inv in E as (e' & C & E). injection E as <-.
    destruct (embed_children _ _ _ G C) as (g' & G' & T).
    exists (Generic.rules_without_simplify H g' var). split.
    + now apply embed_rules.
    + now rewrite AnyHost.any_differentiate_by_rules, T.
Qed.

End Simulation.

End Exactness.

Lemma integer_host_is_exact_witness :
  exists g,
    embed integer_host f = Some g
    /\ (forall e', simplify f = Ret e' ->
                   exists g', embed integer_host e' = Some g'
                              /\ Generic.simplify integer_host g = Ret g')
    /\ (forall var d, differentiate f var = Ret d ->
                      exists g', embed integer_host d = Some g'
                                 /\ Generic.differentiate integer_host g var
                                    = Ret g').
Proof.
  eexists. split; [reflexivity |].
  apply (Exactness.integer_host_is_exact
           integer_host AnyHost.integer_host_lawful f).
  reflexivity.
Defined.
